(** * Spec2Rocq: the trading-signal model of [forex.py]

    A shallow embedding of the class [TradingModel] (constructor,
    [fetch_data], [generate_signal], [calculate_lot_size]).

    - Python floats are IEEE binary64 values, taken from the Standard
      Library's executable specification [SpecFloat] at precision 53 and
      maximal exponent 1024.  A missing table entry is the float NaN, as in
      pandas.
    - Python exceptions are values of type [exn]; a method is a state
      transformer over the object ([self]) and the trace of library calls,
      returning either a value or a raised exception.  A mutation done
      before an exception is raised stays done, as in Python.
    - [yfinance] and the indicator package are parameters ([Libraries]);
      the reference engine that stands in for the indicator package in
      concrete runs follows the specification's contract.

    The definitions come first: exceptions, floats, the data model, the
    three methods, the reference engine and sample inputs.  The proofs
    follow: facts about binary64 rounding, then one theorem per claim, each
    with a concrete run. *)

From Stdlib Require Import ZArith List String Bool Lia.
From Stdlib Require Import Floats.SpecFloat.
Import ListNotations.
Local Open Scope string_scope.

Set Implicit Arguments.

(** ** Exceptions and results *)

Inductive exn_class :=
| ValueError | KeyError | IndexError | AttributeError
| OverflowError | ZeroDivisionError | OtherError.

(** [msg] is what [str(e)] yields; [context] is the exception that was being
    handled when this one was raised ([__context__]). *)
#[warnings="-register-all"]
Inductive exn := Exn (cls : exn_class) (msg : string) (context : option exn).

Definition exn_cls (e : exn) : exn_class := let '(Exn c _ _) := e in c.
Definition str (e : exn) : string := let '(Exn _ m _) := e in m.
Definition exn_context (e : exn) : option exn := let '(Exn _ _ c) := e in c.

Inductive result (A : Type) :=
| Ok (a : A)
| Raise (e : exn).
Arguments Ok {A} a.
Arguments Raise {A} e.

Definition rbind {A B} (r : result A) (k : A -> result B) : result B :=
  match r with
  | Ok a => k a
  | Raise e => Raise e
  end.

(** ** Python floats *)

Module PyFloat.

Definition prec : Z := 53.
Definition emax : Z := 1024.

Definition float : Type := spec_float.

Definition nan : float := S754_nan.
Definition zero : float := S754_zero false.

Definition add : float -> float -> float := SFadd prec emax.
Definition sub : float -> float -> float := SFsub prec emax.
Definition mul : float -> float -> float := SFmul prec emax.
(** IEEE division, which never raises (numpy and pandas arithmetic). *)
Definition div : float -> float -> float := SFdiv prec emax.

Definition ltb : float -> float -> bool := SFltb.
Definition leb : float -> float -> bool := SFleb.
Definition eqb : float -> float -> bool := SFeqb.

Definition isnan (x : float) : bool :=
  match x with
  | S754_nan => true
  | _ => false
  end.

(** An integer literal read as a float: the nearest binary64 value. *)
Definition lit (z : Z) : float := binary_normalize prec emax z 0 false.

(** A decimal literal [n * 10^-k] (for [n] and [10^k] below [2^53], the
    correctly rounded quotient is the nearest binary64 value). *)
Definition dec (n : Z) (k : nat) : float :=
  div (lit n) (lit (10 ^ Z.of_nat k)).

(** The least magnitude of an integer that is out of the range of floats:
    half an ulp above the largest float. *)
Definition float_limit : Z := 2 ^ 1024 - 2 ^ 970.

(** [float(z)] for a Python [int]: rounds to nearest even, and raises when
    the rounded value is out of range, which is from [float_limit] on
    ([of_int_spec]). *)
Definition overflow_error : exn :=
  Exn OverflowError "int too large to convert to float" None.

Definition of_int (z : Z) : result float :=
  match lit z with
  | S754_infinity _ => Raise overflow_error
  | f => Ok f
  end.

(** [a / b] on Python floats. *)
Definition zero_division_error : exn :=
  Exn ZeroDivisionError "float division by zero" None.

Definition truediv (a b : float) : result float :=
  if eqb b zero then Raise zero_division_error else Ok (div a b).

(** [z * f] with [z] an [int] and [f] a [float]: the integer is converted
    first. *)
Definition int_mul (z : Z) (f : float) : result float :=
  rbind (of_int z) (fun x => Ok (mul x f)).

(** The integer nearest to [n / d], ties going to the even one
    ([0 <= n], [0 < d]). *)
Definition div_half_even (n d : Z) : Z :=
  let q := (n / d)%Z in
  match (2 * (n mod d) ?= d)%Z with
  | Lt => q
  | Gt => (q + 1)%Z
  | Eq => if Z.even q then q else (q + 1)%Z
  end.

(** [round(x, ndigits)] for a float [x] and [ndigits >= 0]: the exact value
    of [x] is rounded half-even to [ndigits] decimals, and the decimal
    obtained is read back as the nearest float.  NaN and the infinities
    round to themselves; a float with a non-negative binary exponent is an
    integer and rounds to itself. *)
Definition round (x : float) (ndigits : nat) : float :=
  match x with
  | S754_finite s m e =>
      if (0 <=? e)%Z then x
      else
        let scale := (10 ^ Z.of_nat ndigits)%Z in
        match div_half_even (Zpos m * scale) (2 ^ (- e)) with
        | Zpos q =>
            div (S754_finite s q 0) (S754_finite false (Z.to_pos scale) 0)
        | _ => S754_zero s
        end
  | _ => x
  end.

End PyFloat.
Import PyFloat.

(** ** Data model *)

(** One bar of the provider's table; [timestamp] is the index label. *)
Record PriceBar := {
  timestamp : Z;
  Open : float;
  High : float;
  Low : float;
  Close : float;
  Volume : float
}.

(** One row of the table held in [self.data].  An indicator column that has
    not been assigned is [None]; a column that is there holds a float, NaN
    when the value is missing. *)
Record Row := {
  bar : PriceBar;
  SMA : option float;
  EMA : option float;
  RSI : option float
}.

Definition DataFrame : Type := list Row.

Definition raw_row (b : PriceBar) : Row :=
  {| bar := b; SMA := None; EMA := None; RSI := None |}.

Record TradingModel := {
  currency_pair : string;
  account_balance : float;
  risk_percent : float;
  stop_loss_pips : Z;
  pip_value : float;
  data : option DataFrame
}.

Definition __init__ (currency_pair : string)
    (account_balance risk_percent : float) (stop_loss_pips : Z)
    (pip_value : float) : TradingModel :=
  {| currency_pair := currency_pair;
     account_balance := account_balance;
     risk_percent := risk_percent;
     stop_loss_pips := stop_loss_pips;
     pip_value := pip_value;
     data := None |}.

Inductive Action := Buy | Sell | Hold.

(** The tuple returned by [generate_signal]. *)
Record Signal := {
  action : Action;
  entry_price : float;
  take_profit : option float;
  stop_loss : option float
}.

(** ** The libraries the model calls *)

Inductive LibCall :=
| Download (ticker period interval : string)
| ComputeSMA (window : nat)
| ComputeEMA (window : nat)
| ComputeRSI (window : nat)
| DropNA.

(** [yf_download now ticker period interval] is what the provider answers to
    the call made after [now] earlier library calls: a table of bars, or an
    exception.  The three indicators map a one-dimensional price series and a
    window to a series. *)
Class Libraries := {
  yf_download : nat -> string -> string -> string -> result (list PriceBar);
  sma_indicator : list float -> nat -> list float;
  ema_indicator : list float -> nat -> list float;
  rsi : list float -> nat -> list float
}.

(** ** Methods as state transformers *)

Record World := {
  self : TradingModel;
  calls : list LibCall
}.

Definition M (A : Type) : Type := World -> result A * World.

Definition ret {A} (a : A) : M A := fun w => (Ok a, w).

Definition bind {A B} (c : M A) (k : A -> M B) : M B :=
  fun w =>
    match c w with
    | (Ok a, w') => k a w'
    | (Raise e, w') => (Raise e, w')
    end.

Definition raise {A} (e : exn) : M A := fun w => (Raise e, w).

Definition lift {A} (r : result A) : M A := fun w => (r, w).

(** [try: body except Exception as e: handler e]. *)
Definition try_except {A} (body : M A) (handler : exn -> M A) : M A :=
  fun w =>
    match body w with
    | (Ok a, w') => (Ok a, w')
    | (Raise e, w') => handler e w'
    end.

Declare Scope py_scope.
Delimit Scope py_scope with py.
Notation "x <- c ;; k" := (bind c (fun x => k))
  (at level 61, c at next level, right associativity) : py_scope.
Notation "c ;; k" := (bind c (fun _ => k))
  (at level 61, right associativity) : py_scope.
Local Open Scope py_scope.

Definition get_self : M TradingModel := fun w => (Ok (self w), w).

Definition with_data (m : TradingModel) (d : option DataFrame) : TradingModel :=
  {| currency_pair := currency_pair m;
     account_balance := account_balance m;
     risk_percent := risk_percent m;
     stop_loss_pips := stop_loss_pips m;
     pip_value := pip_value m;
     data := d |}.

(** [self.data = df]. *)
Definition set_data (df : DataFrame) : M unit :=
  fun w =>
    (Ok tt, {| self := with_data (self w) (Some df); calls := calls w |}).

(** An in-place update of the table in [self.data]. *)
Definition modify_data (f : DataFrame -> DataFrame) : M unit :=
  fun w =>
    (Ok tt, {| self := with_data (self w) (option_map f (data (self w)));
               calls := calls w |}).

Definition log (c : LibCall) : M unit :=
  fun w => (Ok tt, {| self := self w; calls := (calls w ++ [c])%list |}).

Definition now : M nat := fun w => (Ok (List.length (calls w)), w).

(** ** [fetch_data] *)

Definition ticker_map : list (string * string) :=
  [ ("XAUUSD", "GC=F");
    ("EURUSD", "EURUSD=X");
    ("GBPUSD", "GBPUSD=X");
    ("USDJPY", "JPY=X") ].

(** [d.get(key, default)]. *)
Fixpoint dict_get (d : list (string * string)) (key default : string)
  : string :=
  match d with
  | [] => default
  | (k, v) :: d' => if String.eqb k key then v else dict_get d' key default
  end.

(** [ticker_map.get(self.currency_pair, self.currency_pair)]. *)
Definition ticker_of (m : TradingModel) : string :=
  dict_get ticker_map (currency_pair m) (currency_pair m).

(** [yf.download(ticker, period=period, interval=interval)]. *)
Definition download `{Libraries} (ticker period interval : string)
  : M (list PriceBar) :=
  t <- now ;;
  log (Download ticker period interval) ;;
  lift (yf_download t ticker period interval).

(** [df.empty]. *)
Definition empty (df : DataFrame) : bool :=
  match df with
  | [] => true
  | _ :: _ => false
  end.

(** [df['Close'].squeeze()]: a column of one row collapses to a scalar, any
    other column stays a series. *)
Inductive Squeezed :=
| Scalar (x : float)
| Series (xs : list float).

Definition squeeze (col : list float) : Squeezed :=
  match col with
  | [x] => Scalar x
  | _ => Series col
  end.

(** What a series method called on a scalar raises. *)
Definition scalar_error (attr : string) : exn :=
  Exn AttributeError
    ("'numpy.float64' object has no attribute '" ++ attr ++ "'") None.

(** A call into the indicator package: it works on a series, and a scalar
    has none of the series methods the package calls first ([attr]). *)
Definition indicator (c : LibCall) (f : list float -> nat -> list float)
    (attr : string) (close_prices : Squeezed) (window : nat) : M (list float) :=
  log c ;;
  match close_prices with
  | Series xs => ret (f xs window)
  | Scalar _ => raise (scalar_error attr)
  end.

Definition set_SMA (r : Row) (x : float) : Row :=
  {| bar := bar r; SMA := Some x; EMA := EMA r; RSI := RSI r |}.
Definition set_EMA (r : Row) (x : float) : Row :=
  {| bar := bar r; SMA := SMA r; EMA := Some x; RSI := RSI r |}.
Definition set_RSI (r : Row) (x : float) : Row :=
  {| bar := bar r; SMA := SMA r; EMA := EMA r; RSI := Some x |}.

(** [df[column] = series], the series carrying the index of the table: row by
    row, a row the series has no value for getting NaN. *)
Fixpoint assign (set : Row -> float -> Row) (col : list float) (df : DataFrame)
  : DataFrame :=
  match df with
  | [] => []
  | r :: df' =>
      match col with
      | [] => set r nan :: assign set [] df'
      | x :: col' => set r x :: assign set col' df'
      end
  end.

Definition opt_isnan (o : option float) : bool :=
  match o with
  | Some x => isnan x
  | None => false
  end.

(** A row with a missing value in some column of the table. *)
Definition has_na (r : Row) : bool :=
  isnan (Open (bar r)) || isnan (High (bar r)) || isnan (Low (bar r))
  || isnan (Close (bar r)) || isnan (Volume (bar r))
  || opt_isnan (SMA r) || opt_isnan (EMA r) || opt_isnan (RSI r).

(** [df.dropna()]: with the default arguments, every row with a missing value
    in any column goes. *)
Definition dropna (df : DataFrame) : DataFrame :=
  filter (fun r => negb (has_na r)) df.

Definition no_data : exn :=
  Exn ValueError
    "No data fetched. Please check the currency pair or network connection."
    None.

(** [raise ValueError(f"Error fetching data: {e}")] inside the handler of
    [e]. *)
Definition fetch_error (e : exn) : exn :=
  Exn ValueError ("Error fetching data: " ++ str e) (Some e).

Definition fetch_data `{Libraries} (interval period : string) : M unit :=
  me <- get_self ;;
  let ticker := ticker_of me in
  try_except
    (bars <- download ticker period interval ;;
     let df := map raw_row bars in
     set_data df ;;
     (if empty df then raise no_data else ret tt) ;;
     let close_prices := squeeze (map Close bars) in
     sma <- indicator (ComputeSMA 14) sma_indicator "rolling" close_prices 14 ;;
     modify_data (assign set_SMA sma) ;;
     ema <- indicator (ComputeEMA 14) ema_indicator "ewm" close_prices 14 ;;
     modify_data (assign set_EMA ema) ;;
     rs <- indicator (ComputeRSI 14) rsi "diff" close_prices 14 ;;
     modify_data (assign set_RSI rs) ;;
     log DropNA ;;
     modify_data dropna)
    (fun e => raise (fetch_error e)).

(** The default arguments of [fetch_data]. *)
Definition default_interval : string := "1d".
Definition default_period : string := "1mo".

(** ** [generate_signal] *)

Definition not_ready : exn :=
  Exn ValueError
    "Data not loaded or insufficient data for generating signals." None.

(** [df.iloc[-1]]. *)
Definition iloc_last (df : DataFrame) : result Row :=
  match rev df with
  | [] =>
      Raise (Exn IndexError "single positional indexer is out-of-bounds" None)
  | r :: _ => Ok r
  end.

(** The [KeyError] of a label the row does not have: pandas catches the
    [KeyError] of the index lookup and raises [KeyError(key)] from it, so the
    exception that reaches the caller carries the first as its context. *)
Definition key_error (key : string) : exn :=
  Exn KeyError ("'" ++ key ++ "'")
    (Some (Exn KeyError ("'" ++ key ++ "'") None)).

(** [row[key]] for an indicator column. *)
Definition getitem (key : string) (col : option float) : result float :=
  match col with
  | Some x => Ok x
  | None => Raise (key_error key)
  end.

Definition generate_signal : M Signal :=
  me <- get_self ;;
  match data me with
  | None => raise not_ready
  | Some df =>
      if empty df then raise not_ready
      else
        last_row <- lift (iloc_last df) ;;
        rsi <- lift (getitem "RSI" (RSI last_row)) ;;
        let close := Close (bar last_row) in
        sma <- lift (getitem "SMA" (SMA last_row)) ;;
        if ltb rsi (lit 30) && ltb sma close then
          up <- lift (int_mul (stop_loss_pips me) (pip_value me)) ;;
          let take_profit := add close up in
          down <- lift (int_mul (stop_loss_pips me) (pip_value me)) ;;
          let stop_loss := sub close down in
          ret {| action := Buy; entry_price := close;
                 take_profit := Some take_profit; stop_loss := Some stop_loss |}
        else if ltb (lit 70) rsi && ltb close sma then
          down <- lift (int_mul (stop_loss_pips me) (pip_value me)) ;;
          let take_profit := sub close down in
          up <- lift (int_mul (stop_loss_pips me) (pip_value me)) ;;
          let stop_loss := add close up in
          ret {| action := Sell; entry_price := close;
                 take_profit := Some take_profit; stop_loss := Some stop_loss |}
        else
          ret {| action := Hold; entry_price := close;
                 take_profit := None; stop_loss := None |}
  end.

(** ** [calculate_lot_size] *)

Definition calculate_lot_size : M float :=
  me <- get_self ;;
  fraction <- lift (truediv (risk_percent me) (lit 100)) ;;
  let risk_amount := mul (account_balance me) fraction in
  pips_value <- lift (int_mul (stop_loss_pips me) (pip_value me)) ;;
  lot_size <- lift (truediv risk_amount pips_value) ;;
  ret (round lot_size 2).

(** A fresh run: the object just constructed, no library called yet. *)
Definition new_world (m : TradingModel) : World := {| self := m; calls := [] |}.

(** ** A reference indicator engine *)

Definition sum (xs : list float) : float := fold_left add xs (lit 0).

Definition mean (xs : list float) : float :=
  div (sum xs) (lit (Z.of_nat (List.length xs))).

(** Modelled from the spec: the indicator package is not part of the
    sources.  SMA is the arithmetic mean of the trailing [window] closes,
    missing on the first [window - 1] positions. *)
Definition spec_sma (close_prices : list float) (window : nat) : list float :=
  map (fun i =>
         if (S i <? window)%nat then nan
         else mean (firstn window (skipn (S i - window) close_prices)))
      (seq 0 (List.length close_prices)).

Fixpoint ema_from (alpha prev : float) (xs : list float) : list float :=
  match xs with
  | [] => []
  | x :: xs' =>
      let e := add (mul alpha x) (mul (sub (lit 1) alpha) prev) in
      e :: ema_from alpha e xs'
  end.

(** Modelled from the spec: the indicator package is not part of the
    sources.  EMA has smoothing factor [2 / (window + 1)], is seeded from the
    SMA of the first [window] values and is missing on the first
    [window - 1] positions. *)
Definition spec_ema (close_prices : list float) (window : nat) : list float :=
  if (List.length close_prices <? window)%nat
  then repeat nan (List.length close_prices)
  else
    let seed := mean (firstn window close_prices) in
    let alpha := div (lit 2) (lit (Z.of_nat window + 1)) in
    (repeat nan (window - 1)
       ++ seed :: ema_from alpha seed (skipn window close_prices))%list.

Fixpoint changes (prev : float) (xs : list float) : list float :=
  match xs with
  | [] => []
  | x :: xs' => sub x prev :: changes x xs'
  end.

Definition gain (d : float) : float := if ltb zero d then d else zero.
Definition loss (d : float) : float := if ltb d zero then SFopp d else zero.

Definition rsi_value (avg_gain avg_loss : float) : float :=
  if eqb avg_loss zero then lit 100
  else sub (lit 100) (div (lit 100) (add (lit 1) (div avg_gain avg_loss))).

Fixpoint wilder (w avg_gain avg_loss : float) (ds : list float) : list float :=
  match ds with
  | [] => []
  | d :: ds' =>
      let g := div (add (mul avg_gain (sub w (lit 1))) (gain d)) w in
      let l := div (add (mul avg_loss (sub w (lit 1))) (loss d)) w in
      rsi_value g l :: wilder w g l ds'
  end.

(** Modelled from the spec: the indicator package is not part of the
    sources.  RSI is Wilder's relative strength index over the trailing
    [window] price changes, scaled 0-100 and missing on the first [window]
    positions. *)
Definition spec_rsi (close_prices : list float) (window : nat) : list float :=
  match close_prices with
  | [] => []
  | x0 :: rest =>
      let ds := changes x0 rest in
      if (List.length ds <? window)%nat
      then repeat nan (List.length close_prices)
      else
        let g := mean (map gain (firstn window ds)) in
        let l := mean (map loss (firstn window ds)) in
        (repeat nan window
           ++ rsi_value g l
           :: wilder (lit (Z.of_nat window)) g l (skipn window ds))%list
  end.

(** The libraries of a run in which the provider answers every call with
    [answer]. *)
Definition reference_libraries (answer : result (list PriceBar)) : Libraries :=
  {| yf_download := fun _ _ _ _ => answer;
     sma_indicator := spec_sma;
     ema_indicator := spec_ema;
     rsi := spec_rsi |}.

(** ** Sample inputs *)

(** A bar that opened, peaked, bottomed and closed at [price], on a volume of
    a thousand. *)
Definition flat_bar (t : Z) (price : float) : PriceBar :=
  {| timestamp := t; Open := price; High := price; Low := price;
     Close := price; Volume := lit 1000 |}.

(** Bars [t, t+1, ...] with the given closes. *)
Fixpoint bars_from (t : Z) (closes : list Z) : list PriceBar :=
  match closes with
  | [] => []
  | c :: closes' => flat_bar t (lit c) :: bars_from (t + 1) closes'
  end.

(** Seventeen daily bars of a falling, then rising market. *)
Definition sample_bars : list PriceBar :=
  bars_from 1
    [120; 119; 118; 117; 116; 115; 114; 113; 112; 111; 110; 109; 108; 107;
     106; 108; 110]%Z.

Definition sample_model : TradingModel :=
  __init__ "EURUSD" (lit 1000) (lit 1) 50 (lit 10).

(** A loaded world: [m] holding the table [rows]. *)
Definition loaded_world (m : TradingModel) (rows : DataFrame) : World :=
  {| self := with_data m (Some rows); calls := [] |}.

(** A row carrying the three values [generate_signal] reads. *)
Definition sample_row (rsi_value close sma : float) : Row :=
  {| bar := flat_bar 1 close; SMA := Some sma; EMA := Some sma;
     RSI := Some rsi_value |}.

Definition oversold_row : Row := sample_row (lit 25) (lit 110) (lit 100).
Definition overbought_row : Row := sample_row (lit 75) (lit 90) (lit 100).
Definition quiet_row : Row := sample_row (lit 50) (lit 100) (lit 100).

(** A model whose stop-loss distance is the integer [2^1024]. *)
Definition huge_model : TradingModel :=
  __init__ "EURUSD" (lit 1000) (lit 1) (2 ^ 1024) (lit 10).

(** [sample_bars] with the volume of the sixteenth bar missing. *)
Definition gap_bars : list PriceBar :=
  map (fun b =>
         if (timestamp b =? 16)%Z
         then {| timestamp := timestamp b; Open := Open b; High := High b;
                 Low := Low b; Close := Close b; Volume := nan |}
         else b)
      sample_bars.

(** ** Derived notions used by the statements *)

(** The library calls that compute an indicator. *)
Definition indicator_call (c : LibCall) : bool :=
  match c with
  | ComputeSMA _ | ComputeEMA _ | ComputeRSI _ => true
  | Download _ _ _ | DropNA => false
  end.

(** The five constructor parameters of a model. *)
Definition params (m : TradingModel)
  : string * float * float * Z * float :=
  (currency_pair m, account_balance m, risk_percent m, stop_loss_pips m,
   pip_value m).

(** The fetched table with its three indicator columns assigned, before any
    row is dropped. *)
Definition enriched `{Libraries} (bars : list PriceBar) : DataFrame :=
  let close_prices := map Close bars in
  assign set_RSI (rsi close_prices 14)
    (assign set_EMA (ema_indicator close_prices 14)
       (assign set_SMA (sma_indicator close_prices 14) (map raw_row bars))).


(** What [generate_signal] computes from the last row, once the table is
    known to end with [r]. *)
Definition branch (me : TradingModel) (r : Row) : result Signal :=
  rbind (getitem "RSI" (RSI r)) (fun rsi_value =>
  rbind (getitem "SMA" (SMA r)) (fun sma =>
    let close := Close (bar r) in
    let distance := int_mul (stop_loss_pips me) (pip_value me) in
    if ltb rsi_value (lit 30) && ltb sma close then
      rbind distance (fun up =>
        Ok {| action := Buy; entry_price := close;
              take_profit := Some (add close up);
              stop_loss := Some (sub close up) |})
    else if ltb (lit 70) rsi_value && ltb close sma then
      rbind distance (fun down =>
        Ok {| action := Sell; entry_price := close;
              take_profit := Some (sub close down);
              stop_loss := Some (add close down) |})
    else
      Ok {| action := Hold; entry_price := close;
            take_profit := None; stop_loss := None |})).

Definition has_indicators (r : Row) : Prop :=
  (exists x, SMA r = Some x) /\ (exists y, EMA r = Some y)
  /\ (exists z, RSI r = Some z).

Definition preserves {A : Type} (c : M A) : Prop :=
  forall w, params (self (snd (c w))) = params (self w).

(** ** Sample runs *)

Definition empty_libraries : Libraries := reference_libraries (Ok []).

Definition one_bar_libraries : Libraries :=
  reference_libraries (Ok (bars_from 1 [100%Z])).

Definition sample_libraries : Libraries := reference_libraries (Ok sample_bars).

Definition gap_libraries : Libraries := reference_libraries (Ok gap_bars).

(** Five bars only: fewer than any indicator needs. *)
Definition short_libraries : Libraries :=
  reference_libraries (Ok (bars_from 1 [100; 101; 102; 101; 100]%Z)).

(** The world after a fetch of [gap_bars]. *)
Definition gap_world : World :=
  snd (@fetch_data gap_libraries default_interval default_period
         (new_world sample_model)).


(** The world after a fetch that got a single bar. *)
Definition one_bar_world : World :=
  snd (@fetch_data one_bar_libraries default_interval default_period
         (new_world sample_model)).

(** ** The Streamlit application ([main]) *)

(** What the sidebar widgets hand to the script on one run: the selected
    values and whether the button was clicked. *)
Record Sidebar := {
  selected_pair : string;
  entered_balance : float;
  slid_risk : float;
  entered_pips : Z;
  entered_pip : float;
  selected_interval : string;
  clicked : bool
}.

Definition pair_options : list string :=
  ["XAUUSD"; "EURUSD"; "GBPUSD"; "USDJPY"].

Definition interval_options : list string := ["1d"; "1h"; "5m"; "1wk"].

(** The values the widgets can deliver, as their arguments bound them: an
    option of each select box, a balance of at least 100.0, a risk between
    0.1 and 5.0, at least 10 pips, a pip value of at least 0.01. *)
Definition delivered (ui : Sidebar) : Prop :=
  In (selected_pair ui) pair_options
  /\ leb (lit 100) (entered_balance ui) = true
  /\ leb (dec 1 1) (slid_risk ui) = true
  /\ leb (slid_risk ui) (lit 5) = true
  /\ (10 <= entered_pips ui)%Z
  /\ leb (dec 1 2) (entered_pip ui) = true
  /\ In (selected_interval ui) interval_options.

(** A piece of a displayed line: literal text, or a float put into an
    f-string (kept as the float, not as its decimal text). *)
Inductive Shown :=
| Text (s : string)
| Number (x : float).

(** A point of the chart: the index label with Close, SMA and EMA. *)
Record ChartPoint := {
  at_time : Z;
  close_line : float;
  sma_line : float;
  ema_line : float
}.

(** The Streamlit calls of the script, in the order they are made. *)
Inductive UIEvent :=
| Title (text : string)
| SidebarHeader (text : string)
| Selectbox (label : string) (options : list string)
| NumberInput (label : string)
| Slider (label : string)
| Button (label : string)
| Write (line : list Shown)
| LineChart (points : list ChartPoint)
| Error (message : string).

(** The script as a transformer of the page (the calls made so far),
    returning a value or an exception that escapes. *)
Definition UI (A : Type) : Type := list UIEvent -> result A * list UIEvent.

Definition ui_ret {A} (a : A) : UI A := fun page => (Ok a, page).

Definition ui_bind {A B} (c : UI A) (k : A -> UI B) : UI B :=
  fun page =>
    match c page with
    | (Ok a, page') => k a page'
    | (Raise e, page') => (Raise e, page')
    end.

Definition st (e : UIEvent) : UI unit :=
  fun page => (Ok tt, (page ++ [e])%list).

(** A method call on the local object [model]: the value and the object
    after the call, or the exception. *)
Definition call {A} (c : M A) (model : World) : UI (A * World) :=
  fun page =>
    match c model with
    | (Ok a, model') => (Ok (a, model'), page)
    | (Raise e, _) => (Raise e, page)
    end.

(** [try: body except ValueError as e: handler e]: any other exception
    passes through. *)
Definition except_ValueError {A} (body : UI A) (handler : exn -> UI A) : UI A :=
  fun page =>
    match body page with
    | (Ok a, page') => (Ok a, page')
    | (Raise e, page') =>
        match exn_cls e with
        | ValueError => handler e page'
        | _ => (Raise e, page')
        end
    end.

Declare Scope ui_scope.
Delimit Scope ui_scope with ui.
Notation "x <~ c ;; k" := (ui_bind c (fun x => k))
  (at level 61, c at next level, right associativity) : ui_scope.
Notation "c ;;; k" := (ui_bind c (fun _ => k))
  (at level 61, right associativity) : ui_scope.

(** The string [generate_signal] returns for an action. *)
Definition action_name (a : Action) : string :=
  match a with
  | Buy => "Buy"
  | Sell => "Sell"
  | Hold => "Hold"
  end.

(** An optional float put into an f-string. *)
Definition shown_level (level : option float) : Shown :=
  match level with
  | Some x => Number x
  | None => Text "None"
  end.

(** [model.data[['Close', 'SMA', 'EMA']]]: the three columns of every row, a
    missing column (or no table at all) raising. *)
Fixpoint chart_points (df : DataFrame) : result (list ChartPoint) :=
  match df with
  | [] => Ok []
  | r :: df' =>
      match SMA r, EMA r with
      | Some s, Some e =>
          rbind (chart_points df') (fun points =>
            Ok ({| at_time := timestamp (bar r); close_line := Close (bar r);
                   sma_line := s; ema_line := e |} :: points))
      | _, _ => Raise (Exn KeyError "['SMA', 'EMA'] not in index" None)
      end
  end.

Definition chart_columns (model : World) : result (list ChartPoint) :=
  match data (self model) with
  | Some df => chart_points df
  | None =>
      Raise (Exn OtherError "'NoneType' object is not subscriptable" None)
  end.

Definition main `{Libraries} (ui : Sidebar) : UI unit :=
  (st (Title "Forex Trading Signal Generator") ;;;
   st (SidebarHeader "User Inputs") ;;;
   st (Selectbox "Select Currency Pair" pair_options) ;;;
   let currency_pair := selected_pair ui in
   st (NumberInput "Account Balance (USD)") ;;;
   let account_balance := entered_balance ui in
   st (Slider "Risk Percentage (%)") ;;;
   let risk_percent := slid_risk ui in
   st (NumberInput "Stop Loss (in Pips)") ;;;
   let stop_loss_pips := entered_pips ui in
   st (NumberInput "Pip Value (USD)") ;;;
   let pip_value := entered_pip ui in
   st (Selectbox "Select Data Interval" interval_options) ;;;
   let interval := selected_interval ui in
   st (Button "Generate Signal") ;;;
   if clicked ui then
     let model :=
       new_world
         (__init__ currency_pair account_balance risk_percent stop_loss_pips
            pip_value) in
     except_ValueError
       (st (Write [Text ("Fetching data for " ++ currency_pair ++ "...")]) ;;;
        fetched <~ call (fetch_data interval default_period) model ;;
        let model := snd fetched in
        generated <~ call generate_signal model ;;
        let signal := fst generated in
        let model := snd generated in
        st (Write [Text ("**Trade Signal:** "
                         ++ action_name (action signal))]) ;;;
        st (Write [Text "**Entry Price:** "; Number (entry_price signal)]) ;;;
        (if negb (String.eqb (action_name (action signal)) "Hold") then
           st (Write [Text "**Take Profit:** ";
                      shown_level (take_profit signal)]) ;;;
           st (Write [Text "**Stop Loss:** "; shown_level (stop_loss signal)])
         else ui_ret tt) ;;;
        sized <~ call calculate_lot_size model ;;
        let lot_size := fst sized in
        let model := snd sized in
        st (Write [Text "**Recommended Lot Size:** "; Number lot_size;
                   Text " lots"]) ;;;
        points <~ (fun page => (chart_columns model, page)) ;;
        st (LineChart points))
       (fun e => st (Error (str e)))
   else ui_ret tt)%ui.

(** The page a run starts from. *)
Definition blank_page : list UIEvent := [].

(** The calls every run makes before it looks at the button. *)
Definition sidebar_page : list UIEvent :=
  [ Title "Forex Trading Signal Generator";
    SidebarHeader "User Inputs";
    Selectbox "Select Currency Pair" pair_options;
    NumberInput "Account Balance (USD)";
    Slider "Risk Percentage (%)";
    NumberInput "Stop Loss (in Pips)";
    NumberInput "Pip Value (USD)";
    Selectbox "Select Data Interval" interval_options;
    Button "Generate Signal" ].

(** The model a run constructs from the sidebar. *)
Definition model_of (ui : Sidebar) : TradingModel :=
  __init__ (selected_pair ui) (entered_balance ui) (slid_risk ui)
    (entered_pips ui) (entered_pip ui).

(** The default values of the widgets, with the button clicked. *)
Definition default_sidebar : Sidebar :=
  {| selected_pair := "XAUUSD"; entered_balance := lit 1000;
     slid_risk := lit 1; entered_pips := 50; entered_pip := lit 10;
     selected_interval := "1d"; clicked := true |}.

(** [math.isfinite(x)]: neither NaN nor an infinity. *)
Definition is_finite (x : float) : bool :=
  match x with
  | S754_zero _ | S754_finite _ _ _ => true
  | S754_infinity _ | S754_nan => false
  end.

(** The chart point of a row (NaN for a column the row does not have). *)
Definition chart_point_of (r : Row) : ChartPoint :=
  {| at_time := timestamp (bar r);
     close_line := Close (bar r);
     sma_line := match SMA r with Some s => s | None => nan end;
     ema_line := match EMA r with Some e => e | None => nan end |}.

(** The lines a run displays for a signal: the action and the entry price,
    and for a Buy or a Sell the two levels. *)
Definition signal_lines (s : Signal) : list UIEvent :=
  [ Write [Text ("**Trade Signal:** " ++ action_name (action s))];
    Write [Text "**Entry Price:** "; Number (entry_price s)] ]
  ++ match action s with
     | Hold => []
     | Buy | Sell =>
         [ Write [Text "**Take Profit:** "; shown_level (take_profit s)];
           Write [Text "**Stop Loss:** "; shown_level (stop_loss s)] ]
     end.

(** The first line of a run, and the line of the lot size. *)
Definition fetching_line (ui : Sidebar) : UIEvent :=
  Write [Text ("Fetching data for " ++ selected_pair ui ++ "...")].

Definition lot_line (lot_size : float) : UIEvent :=
  Write [Text "**Recommended Lot Size:** "; Number lot_size; Text " lots"].

(** What [except ValueError] makes of an exception raised with the page at
    [shown]: a [ValueError] is displayed, anything else escapes. *)
Definition handled (e : exn) (shown : list UIEvent)
  : result unit * list UIEvent :=
  match exn_cls e with
  | ValueError => (Ok tt, (shown ++ [Error (str e)])%list)
  | _ => (Raise e, shown)
  end.

(** The worlds an object constructed as [m0] can be in: after any sequence of
    calls of its three methods, whatever their outcomes. *)
Inductive reachable `{Libraries} (m0 : TradingModel) : World -> Prop :=
| reach_new :
    data m0 = None -> reachable m0 (new_world m0)
| reach_fetch (w : World) (interval period : string) :
    reachable m0 w -> reachable m0 (snd (fetch_data interval period w))
| reach_signal (w : World) :
    reachable m0 w -> reachable m0 (snd (generate_signal w))
| reach_lot_size (w : World) :
    reachable m0 w -> reachable m0 (snd (calculate_lot_size w)).

(** A row with its three indicator columns and no missing value. *)
Definition complete (r : Row) : Prop := has_indicators r /\ has_na r = false.

(** The tables an object can hold: none, the provider's table of at most one
    bar as it came, or a table of complete rows. *)
Definition table_invariant (w : World) : Prop :=
  data (self w) = None
  \/ (exists bars, (List.length bars <= 1)%nat
                   /\ data (self w) = Some (map raw_row bars))
  \/ (exists kept, data (self w) = Some kept /\ Forall complete kept).

(** ** More sample inputs *)

(** A provider that cannot be reached. *)
Definition offline_libraries : Libraries :=
  reference_libraries (Raise (Exn OtherError "connection refused" None)).

(** A model for a pair the ticker table does not list. *)
Definition unlisted_model : TradingModel :=
  __init__ "AUDUSD=X" (lit 1000) (lit 1) 50 (lit 10).

(** A model with no stop-loss distance. *)
Definition no_distance_model : TradingModel :=
  __init__ "EURUSD" (lit 1000) (lit 1) 0 (lit 10).

(** The world after the sample fetch of a run on the default sidebar. *)
Definition sample_world : World :=
  snd (@fetch_data sample_libraries "1d" default_period
         (new_world (model_of default_sidebar))).

(** * Proofs *)

Unset Implicit Arguments.
Local Open Scope Z_scope.

(** ** Facts about binary64 rounding *)

Section Binary64.

(** One shift halves the mantissa and moves its last bit to the round bit. *)
Lemma shr_1_m (r : shr_record) :
  0 <= shr_m r -> shr_m (shr_1 r) = Z.div2 (shr_m r).
Proof.
  destruct r as [m b s]; simpl; intros Hm.
  destruct m as [|[p|p|]|p]; simpl; try reflexivity; lia.
Qed.

Lemma shr_1_r (r : shr_record) :
  0 <= shr_m r -> shr_r (shr_1 r) = Z.odd (shr_m r).
Proof.
  destruct r as [m b s]; simpl; intros Hm.
  destruct m as [|[p|p|]|p]; simpl; try reflexivity; lia.
Qed.

(** [n] shifts divide the mantissa by [2^n]. *)
Lemma iter_shr_m (p : positive) :
  forall r, 0 <= shr_m r ->
    shr_m (iter_pos shr_1 p r) = Z.shiftr (shr_m r) (Zpos p).
Proof.
  induction p as [p IH|p IH|]; intros r Hr; simpl iter_pos.
  - assert (H1 : 0 <= shr_m (shr_1 r))
      by (rewrite shr_1_m by assumption; apply Z.div2_nonneg; assumption).
    assert (H2 : 0 <= shr_m (iter_pos shr_1 p (shr_1 r)))
      by (rewrite IH by assumption; apply Z.shiftr_nonneg; assumption).
    rewrite IH, IH, shr_1_m by assumption.
    rewrite Z.div2_spec, !Z.shiftr_shiftr by lia.
    f_equal; lia.
  - assert (H2 : 0 <= shr_m (iter_pos shr_1 p r))
      by (rewrite IH by assumption; apply Z.shiftr_nonneg; assumption).
    rewrite IH, IH by assumption.
    rewrite Z.shiftr_shiftr by lia.
    f_equal; lia.
  - rewrite shr_1_m, Z.div2_spec by assumption. reflexivity.
Qed.

Lemma iter_pos_swap {A : Type} (f : A -> A) (p : positive) :
  forall x, iter_pos f p (f x) = f (iter_pos f p x).
Proof.
  induction p as [p IH|p IH|]; intros x; simpl; [|rewrite !IH|];
    try reflexivity.
  rewrite !IH. reflexivity.
Qed.

Lemma iter_pos_succ {A : Type} (f : A -> A) (p : positive) (x : A) :
  iter_pos f (Pos.succ p) x = f (iter_pos f p x).
Proof.
  revert x. induction p as [p IH|p IH|]; intros x; simpl.
  - rewrite !IH. rewrite !iter_pos_swap. reflexivity.
  - rewrite !iter_pos_swap. reflexivity.
  - reflexivity.
Qed.

(** The round bit after [n] shifts is bit [n - 1] of the mantissa. *)
Lemma iter_shr_r (n : positive) (r : shr_record) :
  0 <= shr_m r ->
  shr_r (iter_pos shr_1 n r) = Z.testbit (shr_m r) (Zpos n - 1).
Proof.
  intros Hr. destruct (Pos.eq_dec n 1) as [->|Hn].
  - simpl. rewrite shr_1_r by assumption. symmetry. apply Z.bit0_odd.
  - destruct (Pos.succ_pred_or n) as [?|Hs]; [contradiction|].
    rewrite <- Hs, iter_pos_succ, shr_1_r.
    + rewrite iter_shr_m by assumption.
      rewrite <- Z.bit0_odd, Z.shiftr_spec by lia.
      f_equal. lia.
    + rewrite iter_shr_m by assumption. apply Z.shiftr_nonneg. assumption.
Qed.

(** The number of binary digits of a positive, and its bounds. *)
Lemma digits2_pos_size (p : positive) : digits2_pos p = Pos.size p.
Proof. induction p; simpl; congruence. Qed.

Lemma digits2_pos_lower (p : positive) :
  2 ^ (Zpos (digits2_pos p) - 1) <= Zpos p.
Proof.
  rewrite digits2_pos_size.
  pose proof (Pos.size_le p) as H.
  assert (H' : 2 ^ Zpos (Pos.size p) <= 2 * Zpos p).
  { change (2 * Zpos p) with (Zpos p~0).
    rewrite <- Pos2Z.inj_pow. apply Pos2Z.pos_le_pos. exact H. }
  replace (Zpos (Pos.size p)) with (Z.succ (Zpos (Pos.size p) - 1)) in H'
    by lia.
  rewrite Z.pow_succ_r in H' by lia. lia.
Qed.

Lemma digits2_pos_gt (p : positive) : Zpos p < 2 ^ Zpos (digits2_pos p).
Proof.
  rewrite digits2_pos_size. pose proof (Pos.size_gt p) as H.
  rewrite <- Pos2Z.inj_pow. apply Pos2Z.pos_lt_pos. exact H.
Qed.

Lemma digits2_pos_upper (p : positive) (k : Z) :
  Zpos p < 2 ^ k -> 0 <= k -> Zpos (digits2_pos p) <= k.
Proof.
  intros Hp Hk. pose proof (digits2_pos_lower p) as Hlow.
  destruct (Z_le_gt_dec (Zpos (digits2_pos p)) k) as [?|Hgt]; [assumption|].
  assert (2 ^ k <= 2 ^ (Zpos (digits2_pos p) - 1))
    by (apply Z.pow_le_mono_r; lia).
  lia.
Qed.

Lemma digits2_pos_eq (p : positive) (k : Z) :
  2 ^ (k - 1) <= Zpos p < 2 ^ k -> 0 < k -> Zpos (digits2_pos p) = k.
Proof.
  intros [Hlo Hhi] Hk.
  pose proof (digits2_pos_upper p k Hhi ltac:(lia)) as Hle.
  pose proof (digits2_pos_gt p) as Hgt.
  destruct (Z_lt_le_dec (Zpos (digits2_pos p)) k) as [Hlt|]; [|lia].
  assert (2 ^ Zpos (digits2_pos p) <= 2 ^ (k - 1))
    by (apply Z.pow_le_mono_r; lia).
  lia.
Qed.

Lemma digits2_pos_shift (p : positive) (n : positive) :
  digits2_pos (Pos.iter xO p n) = (digits2_pos p + n)%positive.
Proof.
  induction n as [|n IH] using Pos.peano_ind.
  - simpl. lia.
  - rewrite Pos.iter_succ. simpl. rewrite IH. lia.
Qed.

(** Rounding to nearest even moves the mantissa up by at most one. *)
Lemma round_nearest_even_ge (m : Z) (l : location) :
  m <= round_nearest_even m l.
Proof. destruct l as [|[]]; simpl; try lia. destruct (Z.even m); lia. Qed.

Lemma round_nearest_even_le (m : Z) (l : location) :
  round_nearest_even m l <= m + 1.
Proof. destruct l as [|[]]; simpl; try lia. destruct (Z.even m); lia. Qed.

Lemma round_down (r : shr_record) :
  shr_r r = false ->
  round_nearest_even (shr_m r) (loc_of_shr_record r) = shr_m r.
Proof. destruct r as [m [|] [|]]; simpl; intros; congruence. Qed.

Lemma round_up_odd (r : shr_record) :
  shr_r r = true -> Z.odd (shr_m r) = true ->
  round_nearest_even (shr_m r) (loc_of_shr_record r) = shr_m r + 1.
Proof.
  destruct r as [m [|] [|]]; simpl; intros Hr Hodd; try discriminate;
    try reflexivity.
  rewrite <- Z.negb_odd, Hodd. reflexivity.
Qed.

(** Above the least exponent, the shift to the target precision keeps a
    positive mantissa and does not lower the exponent. *)
Lemma shr_fexp_positive (p : positive) (e : Z) (l : location) :
  emin prec emax <= e ->
  0 < shr_m (fst (shr_fexp prec emax (Zpos p) e l))
  /\ e <= snd (shr_fexp prec emax (Zpos p) e l).
Proof.
  intros He. unfold shr_fexp, shr.
  set (d := Zdigits2 (Zpos p)).
  assert (Hd : d = Zpos (digits2_pos p)) by reflexivity.
  assert (Hm : 0 < shr_m (shr_record_of_loc (Zpos p) l))
    by (destruct l as [|[]]; simpl; lia).
  destruct (fexp prec emax (d + e) - e) as [|n|n] eqn:En; simpl fst; simpl snd.
  - split; [assumption | lia].
  - split; [|lia].
    rewrite iter_shr_m by lia.
    assert (Hs : shr_m (shr_record_of_loc (Zpos p) l) = Zpos p)
      by (destruct l as [|[]]; reflexivity).
    rewrite Hs, Z.shiftr_div_pow2 by lia.
    assert (Hn : Zpos n <= d - 1).
    { unfold fexp, emin, prec, emax in *. lia. }
    pose proof (digits2_pos_lower p) as Hlow. rewrite <- Hd in Hlow.
    assert (Hpow : 2 ^ Zpos n <= 2 ^ (d - 1)) by (apply Z.pow_le_mono_r; lia).
    assert (0 < 2 ^ Zpos n) by (apply Z.pow_pos_nonneg; lia).
    apply Z.div_str_pos. lia.
  - split; [assumption | lia].
Qed.

(** So rounding a positive mantissa above the least exponent never gives
    zero. *)
Lemma binary_round_aux_nonzero (s : bool) (p : positive) (e : Z)
    (l : location) :
  emin prec emax <= e ->
  (exists m' e',
      binary_round_aux prec emax s (Zpos p) e l = S754_finite s m' e'
      /\ e <= e')
  \/ binary_round_aux prec emax s (Zpos p) e l = S754_infinity s.
Proof.
  intros He. unfold binary_round_aux.
  destruct (shr_fexp_positive p e l He) as [Hm1 He1].
  destruct (shr_fexp prec emax (Zpos p) e l) as [r1 e1]; simpl in Hm1, He1.
  pose proof (round_nearest_even_ge (shr_m r1) (loc_of_shr_record r1)) as Hr.
  destruct (round_nearest_even (shr_m r1) (loc_of_shr_record r1)) as [|q|q];
    try lia.
  assert (He1' : emin prec emax <= e1) by lia.
  destruct (shr_fexp_positive q e1 loc_Exact He1') as [Hm2 He2].
  destruct (shr_fexp prec emax (Zpos q) e1 loc_Exact) as [r2 e2];
    simpl in Hm2, He2.
  destruct (shr_m r2) as [|m2|m2]; try lia.
  destruct (e2 <=? emax - prec).
  - left. exists m2, e2. split; [reflexivity | lia].
  - right. reflexivity.
Qed.

(** A positive integer converts to a finite float of exponent at least -52,
    or overflows. *)
Lemma lit_positive (p : positive) :
  (exists m e, lit (Zpos p) = S754_finite false m e /\ -52 <= e)
  \/ lit (Zpos p) = S754_infinity false.
Proof.
  unfold lit, binary_normalize, binary_round, shl_align.
  assert (Hf : -52 <= fexp prec emax (Zpos (digits2_pos p) + 0))
    by (unfold fexp, emin, prec, emax; lia).
  destruct (fexp prec emax (Zpos (digits2_pos p) + 0) - 0) as [|n|n] eqn:En.
  - destruct (binary_round_aux_nonzero false p 0 loc_Exact)
      as [(m & e & H & He)|H];
      [unfold emin, prec, emax; lia | left | right; exact H].
    exists m, e. split; [exact H | lia].
  - destruct (binary_round_aux_nonzero false p 0 loc_Exact)
      as [(m & e & H & He)|H];
      [unfold emin, prec, emax; lia | left | right; exact H].
    exists m, e. split; [exact H | lia].
  - set (e0 := fexp prec emax (Zpos (digits2_pos p) + 0)) in *.
    destruct (binary_round_aux_nonzero false (Pos.iter xO p n) e0 loc_Exact)
      as [(m & e & H & He)|H];
      [unfold emin, prec, emax; lia | left | right; exact H].
    exists m, e. split; [exact H | lia].
Qed.

(** A product of finite floats does not underflow to zero while the sum of
    the exponents stays above the least exponent. *)
Lemma mul_finite_nonzero (sx sy : bool) (mx my : positive) (ex ey : Z) :
  emin prec emax <= ex + ey ->
  eqb (mul (S754_finite sx mx ex) (S754_finite sy my ey)) zero = false.
Proof.
  intros He. unfold mul, SFmul.
  destruct (binary_round_aux_nonzero (xorb sx sy) (mx * my) (ex + ey)
              loc_Exact He)
    as [(m & e & H & _)|H]; rewrite H; destruct (xorb sx sy); reflexivity.
Qed.

(** A mantissa of exactly 53 bits is left as it is. *)
Lemma shr_fexp_canonical (p : positive) (e : Z) :
  Zpos (digits2_pos p) = prec -> emin prec emax <= e ->
  shr_fexp prec emax (Zpos p) e loc_Exact
  = ({| shr_m := Zpos p; shr_r := false; shr_s := false |}, e).
Proof.
  intros Hd He. unfold shr_fexp, shr. simpl Zdigits2. rewrite Hd.
  replace (fexp prec emax (prec + e) - e) with 0
    by (unfold fexp, emin, prec, emax in *; lia).
  reflexivity.
Qed.

Lemma binary_round_aux_canonical (s : bool) (p : positive) (e : Z) :
  Zpos (digits2_pos p) = prec -> emin prec emax <= e <= emax - prec ->
  binary_round_aux prec emax s (Zpos p) e loc_Exact = S754_finite s p e.
Proof.
  intros Hd He. unfold binary_round_aux.
  rewrite shr_fexp_canonical by (assumption || lia). simpl.
  rewrite shr_fexp_canonical by (assumption || lia). simpl.
  assert (Hle : (e <=? 971) = true)
    by (apply Z.leb_le; unfold emax, prec in He; lia).
  rewrite Hle. reflexivity.
Qed.

(** The mantissa kept by the first shift of an integer of [53 + n] bits. *)
Lemma shifted_mantissa_bounds (p n : positive) :
  Zpos (digits2_pos p) = 53 + Zpos n ->
  2 ^ 52 <= Z.shiftr (Zpos p) (Zpos n) < 2 ^ 53.
Proof.
  intros Hd. rewrite Z.shiftr_div_pow2 by lia.
  pose proof (digits2_pos_lower p) as Hlo.
  pose proof (digits2_pos_gt p) as Hhi.
  rewrite Hd in Hlo, Hhi.
  replace (53 + Zpos n - 1) with (52 + Zpos n) in Hlo by lia.
  rewrite Z.pow_add_r in Hlo, Hhi by lia.
  assert (0 < 2 ^ Zpos n) by (apply Z.pow_pos_nonneg; lia).
  split.
  - apply Z.div_le_lower_bound; lia.
  - apply Z.div_lt_upper_bound; lia.
Qed.

(** How an integer of [53 + n] bits is rounded to a float. *)
Lemma binary_round_aux_integer (s : bool) (p n : positive) :
  Zpos (digits2_pos p) = 53 + Zpos n ->
  let r1 := iter_pos shr_1 n
              {| shr_m := Zpos p; shr_r := false; shr_s := false |} in
  let m2 := round_nearest_even (shr_m r1) (loc_of_shr_record r1) in
  binary_round_aux prec emax s (Zpos p) 0 loc_Exact
  = if m2 <? 2 ^ 53
    then if Zpos n <=? 971 then S754_finite s (Z.to_pos m2) (Zpos n)
         else S754_infinity s
    else if Zpos n + 1 <=? 971 then S754_finite s (2 ^ 52) (Zpos n + 1)
         else S754_infinity s.
Proof.
  intros Hd r1 m2.
  assert (Hm1 : 2 ^ 52 <= shr_m r1 < 2 ^ 53).
  { unfold r1. rewrite iter_shr_m by (simpl; lia). simpl shr_m.
    apply shifted_mantissa_bounds. exact Hd. }
  assert (Hm2 : 2 ^ 52 <= m2 <= 2 ^ 53).
  { unfold m2.
    pose proof (round_nearest_even_ge (shr_m r1) (loc_of_shr_record r1)).
    pose proof (round_nearest_even_le (shr_m r1) (loc_of_shr_record r1)).
    lia. }
  unfold binary_round_aux.
  assert (Hfirst : shr_fexp prec emax (Zpos p) 0 loc_Exact = (r1, Zpos n)).
  { unfold shr_fexp, shr. simpl Zdigits2. rewrite Hd.
    replace (fexp prec emax (53 + Zpos n + 0) - 0) with (Zpos n)
      by (unfold fexp, emin, prec, emax; lia).
    reflexivity. }
  rewrite Hfirst. fold m2.
  destruct (Z.ltb_spec m2 (2 ^ 53)) as [Hlt|Hge].
  - destruct m2 as [|q|q] eqn:Eq; try lia.
    assert (Hq : Zpos (digits2_pos q) = 53)
      by (apply digits2_pos_eq; [change (53 - 1) with 52|]; lia).
    unfold shr_fexp, shr. simpl Zdigits2. rewrite Hq.
    replace (fexp prec emax (53 + Zpos n) - Zpos n) with 0
      by (unfold fexp, emin, prec, emax; lia).
    reflexivity.
  - assert (Heq : m2 = 2 ^ 53) by lia. rewrite Heq.
    unfold shr_fexp, shr.
    replace (fexp prec emax (Zdigits2 (2 ^ 53) + Zpos n) - Zpos n) with 1
      by (change (Zdigits2 (2 ^ 53)) with 54;
          unfold fexp, emin, prec, emax; lia).
    reflexivity.
Qed.

(** A positive integer rounds to an infinity exactly from [2^1024 - 2^970]
    on, half an ulp above the largest float. *)
Lemma binary_round_integer_overflow (s : bool) (p : positive) :
  (Zpos p < float_limit ->
   exists m e, binary_round prec emax s p 0 = S754_finite s m e)
  /\ (float_limit <= Zpos p ->
      binary_round prec emax s p 0 = S754_infinity s).
Proof.
  unfold binary_round, shl_align.
  pose proof (digits2_pos_lower p) as Hlo.
  pose proof (digits2_pos_gt p) as Hhi.
  destruct (fexp prec emax (Zpos (digits2_pos p) + 0) - 0) as [|n|n] eqn:En.
  - (* exactly 53 bits *)
    assert (Hd : Zpos (digits2_pos p) = 53)
      by (unfold fexp, emin, prec, emax in En; lia).
    rewrite binary_round_aux_canonical
      by (try exact Hd; unfold emin, prec, emax; lia).
    rewrite Hd in Hhi. split; [eauto|].
    intros Hbig. exfalso. unfold float_limit in Hbig.
    assert (2 ^ 53 < 2 ^ 1024 - 2 ^ 970) by (vm_compute; reflexivity). lia.
  - (* more than 53 bits *)
    assert (Hd : Zpos (digits2_pos p) = 53 + Zpos n)
      by (unfold fexp, emin, prec, emax in En; lia).
    rewrite (binary_round_aux_integer s p n Hd).
    set (r1 := iter_pos shr_1 n
                 {| shr_m := Zpos p; shr_r := false; shr_s := false |}).
    assert (Hm1 : shr_m r1 = Z.shiftr (Zpos p) (Zpos n))
      by (unfold r1; rewrite iter_shr_m by (simpl; lia); reflexivity).
    assert (Hb : shr_r r1 = Z.testbit (Zpos p) (Zpos n - 1))
      by (unfold r1; rewrite iter_shr_r by (simpl; lia); reflexivity).
    pose proof (shifted_mantissa_bounds p n Hd) as Hbounds.
    rewrite <- Hm1 in Hbounds.
    pose proof (round_nearest_even_ge (shr_m r1) (loc_of_shr_record r1))
      as Hge.
    pose proof (round_nearest_even_le (shr_m r1) (loc_of_shr_record r1))
      as Hle.
    set (m2 := round_nearest_even (shr_m r1) (loc_of_shr_record r1)) in *.
    rewrite Hd in Hlo, Hhi.
    destruct (Z_lt_le_dec (Zpos n) 971) as [Hsmall|Hlarge].
    + (* at most 1023 bits: finite *)
      assert (Hp : Zpos p < float_limit).
      { assert (2 ^ (53 + Zpos n) <= 2 ^ 1023) by (apply Z.pow_le_mono_r; lia).
        assert (2 ^ 1023 < float_limit) by (vm_compute; reflexivity). lia. }
      split; [intros _|lia].
      destruct (m2 <? 2 ^ 53).
      * replace (Zpos n <=? 971) with true by (symmetry; apply Z.leb_le; lia).
        eauto.
      * replace (Zpos n + 1 <=? 971) with true
          by (symmetry; apply Z.leb_le; lia).
        eauto.
    + destruct (Z.eq_dec (Zpos n) 971) as [Hn|Hn].
      * (* 1024 bits: the last binade *)
        injection Hn as ->.
        set (q := Z.shiftr (Zpos p) 970).
        assert (Hq1 : shr_m r1 = q / 2).
        { rewrite Hm1. unfold q.
          change 971 with (970 + 1). rewrite <- Z.shiftr_shiftr by lia.
          rewrite <- Z.div2_spec. apply Z.div2_div. }
        assert (Hqb : shr_r r1 = Z.odd q).
        { rewrite Hb. unfold q. change (971 - 1) with (0 + 970).
          rewrite <- Z.shiftr_spec by lia. apply Z.bit0_odd. }
        assert (Hqp : Zpos p < float_limit <-> q < 2 ^ 54 - 1).
        { unfold q, float_limit. rewrite Z.shiftr_div_pow2 by lia.
          assert (Hlim : 2 ^ 1024 - 2 ^ 970 = (2 ^ 54 - 1) * 2 ^ 970)
            by (vm_compute; reflexivity).
          rewrite Hlim.
          assert (Hpos : 0 < 2 ^ 970) by (apply Z.pow_pos_nonneg; lia).
          split; intros Hlt.
          - apply Z.div_lt_upper_bound; lia.
          - destruct (Z_lt_le_dec (Zpos p) ((2 ^ 54 - 1) * 2 ^ 970))
              as [?|Hge']; [assumption|].
            rewrite Z.mul_comm in Hge'.
            apply (Z.div_le_lower_bound _ _ _ Hpos) in Hge'; lia. }
        assert (Hpow : 2 ^ 54 = 2 * 2 ^ 53) by reflexivity.
        clearbody q. clear Hlo Hhi Hm1 Hb.
        pose proof (Zmod_odd q) as Hodd.
        pose proof (Z.div_mod q 2 ltac:(lia)) as Hdm.
        change (971 <=? 971) with true. change (971 + 1 <=? 971) with false.
        split.
        -- intros Hp. apply Hqp in Hp.
           assert (Hm2 : m2 < 2 ^ 53).
           { destruct (shr_r r1) eqn:Hr.
             - rewrite <- Hqb in Hodd. cbn iota in Hodd.
               assert (q / 2 < 2 ^ 53 - 1) by (clear - Hodd Hdm Hp; lia).
               clear - Hle Hq1 H. lia.
             - unfold m2. rewrite (round_down r1 Hr). clear - Hbounds. lia. }
           apply Z.ltb_lt in Hm2. rewrite Hm2. eauto.
        -- intros Hp.
           assert (Hq : 2 ^ 54 - 1 <= q) by (destruct Hqp; lia).
           assert (Hmod : 0 <= q mod 2 < 2) by (apply Z.mod_pos_bound; lia).
           assert (Hqeq : q = 2 ^ 54 - 1)
             by (clear - Hq Hmod Hdm Hq1 Hbounds Hpow; lia).
           assert (Hr : shr_r r1 = true)
             by (rewrite Hqb, Hqeq; reflexivity).
           assert (Hm1odd : Z.odd (shr_m r1) = true)
             by (rewrite Hq1, Hqeq; reflexivity).
           assert (Hm2 : m2 = 2 ^ 53).
           { unfold m2. rewrite (round_up_odd r1 Hr Hm1odd), Hq1, Hqeq.
             reflexivity. }
           rewrite Hm2. reflexivity.
      * (* more than 1024 bits: out of range *)
        assert (Hp : float_limit <= Zpos p).
        { assert (2 ^ 1024 <= 2 ^ (53 + Zpos n - 1))
            by (apply Z.pow_le_mono_r; lia).
          assert (float_limit < 2 ^ 1024) by (vm_compute; reflexivity). lia. }
        split; [lia|intros _].
        replace (Zpos n <=? 971) with false
          by (symmetry; apply Z.leb_gt; lia).
        replace (Zpos n + 1 <=? 971) with false
          by (symmetry; apply Z.leb_gt; lia).
        destruct (m2 <? 2 ^ 53); reflexivity.
  - (* fewer than 53 bits *)
    assert (Hd : Zpos (digits2_pos p) + Zpos n = 53)
      by (unfold fexp, emin, prec, emax in En; lia).
    rewrite binary_round_aux_canonical.
    + split; [eauto|]. intros Hbig. exfalso. unfold float_limit in Hbig.
      assert (2 ^ Zpos (digits2_pos p) <= 2 ^ 53)
        by (apply Z.pow_le_mono_r; lia).
      assert (2 ^ 53 < 2 ^ 1024 - 2 ^ 970) by (vm_compute; reflexivity). lia.
    + rewrite digits2_pos_shift. unfold prec. lia.
    + unfold fexp, emin, prec, emax in *. lia.
Qed.

(** [float(z)] succeeds exactly below [float_limit], with the nearest
    float. *)
Lemma of_int_spec (z : Z) :
  (Z.abs z < float_limit -> of_int z = Ok (lit z))
  /\ (float_limit <= Z.abs z -> of_int z = Raise overflow_error).
Proof.
  unfold of_int, lit, binary_normalize.
  destruct z as [|p|p]; cbn [Z.abs].
  - split; [reflexivity|]. intros H. exfalso.
    assert (0 < float_limit) by (vm_compute; reflexivity). lia.
  - destruct (binary_round_integer_overflow false p) as [Hfin Hinf].
    split; intros H.
    + destruct (Hfin H) as (m & e & ->). reflexivity.
    + rewrite (Hinf H). reflexivity.
  - destruct (binary_round_integer_overflow true p) as [Hfin Hinf].
    split; intros H.
    + destruct (Hfin H) as (m & e & ->). reflexivity.
    + rewrite (Hinf H). reflexivity.
Qed.

Lemma of_int_ok (z : Z) : Z.abs z < float_limit -> of_int z = Ok (lit z).
Proof. apply of_int_spec. Qed.

End Binary64.

Lemma dec_1_2 : dec 1 2 = S754_finite false 5764607523034235 (-59).
Proof. vm_compute. reflexivity. Qed.

(** The divisor of the lot size cannot be zero once the stop-loss distance
    is at least ten pips and the pip value at least a hundredth. *)
Lemma lot_divisor_nonzero (pips : Z) (fp pip : float) :
  10 <= pips -> of_int pips = Ok fp -> leb (dec 1 2) pip = true ->
  eqb (mul fp pip) zero = false.
Proof.
  intros Hpips Hconv Hpip. rewrite dec_1_2 in Hpip.
  destruct pips as [|p|p]; try lia.
  unfold of_int in Hconv.
  destruct (lit_positive p) as [(m & e & Hlit & He)|Hlit];
    rewrite Hlit in Hconv; [|discriminate].
  injection Hconv as <-.
  destruct pip as [s|[|]| |[|] my ey]; try discriminate; try reflexivity.
  apply mul_finite_nonzero.
  assert (-59 <= ey).
  { unfold leb, SFleb, SFcompare in Hpip.
    destruct (Z.compare_spec (-59) ey); try lia; discriminate. }
  unfold emin, prec, emax. lia.
Qed.

(** Float equality with a finite value is equality of representations. *)
Lemma eqb_finite (x : float) (s : bool) (m : positive) (e : Z) :
  eqb x (S754_finite s m e) = true -> x = S754_finite s m e.
Proof.
  unfold eqb, SFeqb, SFcompare.
  destruct x as [sx|sx| |sx mx ex]; try discriminate.
  - destruct sx; destruct s; discriminate.
  - destruct sx; discriminate.
  - destruct sx, s; try discriminate;
      destruct (Z.compare_spec ex e); try discriminate; subst;
      destruct (Pos.compare_cont Eq mx m) eqn:Hc; try discriminate;
      apply Pos.compare_eq in Hc; subst; reflexivity.
Qed.

(** ** [generate_signal] on a loaded table *)

Section Signal.

Lemma empty_snoc (rows : DataFrame) (r : Row) :
  empty (rows ++ [r])%list = false.
Proof. destruct rows; reflexivity. Qed.

Lemma iloc_last_snoc (rows : DataFrame) (r : Row) :
  iloc_last (rows ++ [r])%list = Ok r.
Proof. unfold iloc_last. rewrite rev_app_distr. reflexivity. Qed.

Lemma nonempty_snoc (df : DataFrame) :
  empty df = false -> exists rows r, df = (rows ++ [r])%list.
Proof.
  destruct df as [|r0 df]; [discriminate|]. intros _.
  destruct (exists_last (l := r0 :: df)) as (rows & r & ->);
    [discriminate | eauto].
Qed.

Lemma generate_signal_loaded (w : World) (rows : DataFrame) (r : Row) :
  data (self w) = Some (rows ++ [r])%list ->
  generate_signal w = (branch (self w) r, w).
Proof.
  intros Hdata.
  unfold generate_signal, branch, bind, get_self, lift, ret, raise.
  rewrite Hdata, empty_snoc, iloc_last_snoc.
  destruct (getitem "RSI" (RSI r)) as [rsi_value|e]; [|reflexivity].
  destruct (getitem "SMA" (SMA r)) as [sma|e]; [|reflexivity].
  cbn [rbind].
  destruct (ltb rsi_value (lit 30) && ltb sma (Close (bar r))).
  - destruct (int_mul (stop_loss_pips (self w)) (pip_value (self w)));
      reflexivity.
  - destruct (ltb (lit 70) rsi_value && ltb (Close (bar r)) sma).
    + destruct (int_mul (stop_loss_pips (self w)) (pip_value (self w)));
        reflexivity.
    + reflexivity.
Qed.

End Signal.

Lemma lit_30 : lit 30 = S754_finite false 8444249301319680 (-48).
Proof. vm_compute. reflexivity. Qed.

Lemma lit_70 : lit 70 = S754_finite false 4925812092436480 (-46).
Proof. vm_compute. reflexivity. Qed.

(** A value above 70 is not below 30. *)
Lemma above_70_not_below_30 (x : float) :
  ltb (lit 70) x = true -> ltb x (lit 30) = false.
Proof.
  rewrite lit_30, lit_70. unfold ltb, SFltb, SFcompare.
  destruct x as [s|s| |s m e]; try discriminate.
  - destruct s; [discriminate | reflexivity].
  - destruct s; [discriminate|].
    destruct (Z.compare_spec (-46) e); try discriminate;
      destruct (Z.compare_spec e (-48)); try reflexivity; lia.
Qed.

(** A value equal to a float is not below it, nor above it. *)
Lemma eqb_not_ltb (x y : float) :
  eqb x y = true -> ltb x y = false /\ ltb y x = false.
Proof.
  unfold eqb, ltb, SFeqb, SFltb. intros H.
  destruct (SFcompare x y) as [[| |]|] eqn:Hxy; try discriminate.
  split; [reflexivity|].
  destruct x as [sx|sx| |sx mx ex], y as [sy|sy| |sy my ey];
    try discriminate; try reflexivity;
    try (destruct sx, sy; try discriminate; reflexivity);
    try (destruct sx; discriminate); try (destruct sy; discriminate).
  unfold SFcompare in *.
  destruct sx, sy; try discriminate;
    destruct (Z.compare_spec ex ey); try discriminate; subst;
    rewrite Z.compare_refl;
    destruct (Pos.compare_cont Eq mx my) eqn:Hc; try discriminate;
    apply Pos.compare_eq in Hc; subst; rewrite Pos.compare_cont_refl;
    reflexivity.
Qed.

Section SignalClaims.

Local Opaque lit ltb add sub mul.

(** C1 (amended).  On a loaded non-empty table whose last row has
    [rsi < 30] and [close > sma], and with a stop-loss distance of magnitude
    below [2^1024 - 2^970] (the integers that convert to a float),
    [generate_signal] returns Buy with entry price [close], take profit
    [close + stop_loss_pips * pip_value] and stop loss
    [close - stop_loss_pips * pip_value]; the object is left as it was. *)
Theorem C1_buy_signal (w : World) (rows : DataFrame) (r : Row)
    (rsi_value sma : float) :
  data (self w) = Some (rows ++ [r])%list ->
  RSI r = Some rsi_value -> SMA r = Some sma ->
  ltb rsi_value (lit 30) = true ->
  ltb sma (Close (bar r)) = true ->
  Z.abs (stop_loss_pips (self w)) < float_limit ->
  let distance := mul (lit (stop_loss_pips (self w))) (pip_value (self w)) in
  generate_signal w
  = (Ok {| action := Buy;
           entry_price := Close (bar r);
           take_profit := Some (add (Close (bar r)) distance);
           stop_loss := Some (sub (Close (bar r)) distance) |},
     w).
Proof.
  intros Hdata Hrsi Hsma Hlow Habove Hrange distance.
  pose proof (of_int_ok _ Hrange) as Hpips.
  rewrite (generate_signal_loaded w rows r Hdata).
  unfold branch, int_mul. rewrite Hrsi, Hsma, Hpips. cbn [getitem rbind].
  rewrite Hlow, Habove. reflexivity.
Qed.

(** C2 (amended).  On a loaded non-empty table whose last row has
    [rsi > 70] and [close < sma], and with a stop-loss distance of magnitude
    below [2^1024 - 2^970] (the integers that convert to a float),
    [generate_signal] returns Sell with entry price [close], take profit
    [close - stop_loss_pips * pip_value] and stop loss
    [close + stop_loss_pips * pip_value]; the object is left as it was. *)
Theorem C2_sell_signal (w : World) (rows : DataFrame) (r : Row)
    (rsi_value sma : float) :
  data (self w) = Some (rows ++ [r])%list ->
  RSI r = Some rsi_value -> SMA r = Some sma ->
  ltb (lit 70) rsi_value = true ->
  ltb (Close (bar r)) sma = true ->
  Z.abs (stop_loss_pips (self w)) < float_limit ->
  let distance := mul (lit (stop_loss_pips (self w))) (pip_value (self w)) in
  generate_signal w
  = (Ok {| action := Sell;
           entry_price := Close (bar r);
           take_profit := Some (sub (Close (bar r)) distance);
           stop_loss := Some (add (Close (bar r)) distance) |},
     w).
Proof.
  intros Hdata Hrsi Hsma Hhigh Hbelow Hrange distance.
  pose proof (of_int_ok _ Hrange) as Hpips.
  rewrite (generate_signal_loaded w rows r Hdata).
  unfold branch, int_mul. rewrite Hrsi, Hsma, Hpips. cbn [getitem rbind].
  rewrite Hhigh, Hbelow. cbn [andb].
  rewrite (above_70_not_below_30 rsi_value Hhigh). reflexivity.
Qed.

(** C3.  On a loaded non-empty table whose last row passes neither the Buy
    test nor the Sell test, [generate_signal] returns Hold with the take
    profit and the stop loss absent; an RSI of exactly 30 or exactly 70 is
    such a case. *)
Theorem C3_hold_signal (w : World) (rows : DataFrame) (r : Row)
    (rsi_value sma : float) :
  data (self w) = Some (rows ++ [r])%list ->
  RSI r = Some rsi_value -> SMA r = Some sma ->
  let hold :=
    (Ok {| action := Hold; entry_price := Close (bar r);
           take_profit := None; stop_loss := None |}, w) in
  (ltb rsi_value (lit 30) && ltb sma (Close (bar r)) = false ->
   ltb (lit 70) rsi_value && ltb (Close (bar r)) sma = false ->
   generate_signal w = hold)
  /\ (eqb rsi_value (lit 30) = true -> generate_signal w = hold)
  /\ (eqb rsi_value (lit 70) = true -> generate_signal w = hold).
Proof.
  intros Hdata Hrsi Hsma hold.
  assert (Hgen : ltb rsi_value (lit 30) && ltb sma (Close (bar r)) = false ->
                 ltb (lit 70) rsi_value && ltb (Close (bar r)) sma = false ->
                 generate_signal w = hold).
  { intros Hbuy Hsell.
    rewrite (generate_signal_loaded w rows r Hdata).
    unfold branch. rewrite Hrsi, Hsma. cbn [getitem rbind].
    rewrite Hbuy, Hsell. reflexivity. }
  split; [exact Hgen|]. split; intros Heq; apply Hgen.
  - destruct (eqb_not_ltb _ _ Heq) as [-> _]. reflexivity.
  - rewrite lit_30 in Heq. apply eqb_finite in Heq. subst rsi_value.
    rewrite lit_70. reflexivity.
  - rewrite lit_70 in Heq. apply eqb_finite in Heq. subst rsi_value.
    rewrite lit_30. reflexivity.
  - destruct (eqb_not_ltb _ _ Heq) as [_ ->]. reflexivity.
Qed.

(** C8.  [generate_signal] reads the last row only: two loaded non-empty
    tables whose last rows agree on RSI, Close and SMA, held by models with
    the same parameters, give the same outcome. *)
Theorem C8_last_row_only (w1 w2 : World) (rows1 rows2 : DataFrame)
    (r1 r2 : Row) :
  data (self w1) = Some (rows1 ++ [r1])%list ->
  data (self w2) = Some (rows2 ++ [r2])%list ->
  RSI r1 = RSI r2 -> Close (bar r1) = Close (bar r2) -> SMA r1 = SMA r2 ->
  params (self w1) = params (self w2) ->
  fst (generate_signal w1) = fst (generate_signal w2).
Proof.
  intros H1 H2 Hrsi Hclose Hsma Hparams.
  rewrite (generate_signal_loaded w1 rows1 r1 H1).
  rewrite (generate_signal_loaded w2 rows2 r2 H2).
  unfold params in Hparams. injection Hparams as _ _ _ Hpips Hpip.
  unfold branch. cbn [fst]. rewrite Hrsi, Hclose, Hsma, Hpips, Hpip.
  reflexivity.
Qed.

(** From [2^1024 - 2^970] pips on, the Buy and Sell branches raise. *)
Lemma generate_signal_overflow (w : World) (rows : DataFrame) (r : Row)
    (rsi_value sma : float) :
  data (self w) = Some (rows ++ [r])%list ->
  RSI r = Some rsi_value -> SMA r = Some sma ->
  (ltb rsi_value (lit 30) && ltb sma (Close (bar r))
   || ltb (lit 70) rsi_value && ltb (Close (bar r)) sma) = true ->
  float_limit <= Z.abs (stop_loss_pips (self w)) ->
  generate_signal w = (Raise overflow_error, w).
Proof.
  intros Hdata Hrsi Hsma Htest Hrange.
  rewrite (generate_signal_loaded w rows r Hdata).
  unfold branch, int_mul. rewrite Hrsi, Hsma. cbn [getitem rbind].
  rewrite (proj2 (of_int_spec _) Hrange). cbn [rbind].
  destruct (ltb rsi_value (lit 30) && ltb sma (Close (bar r)));
    [reflexivity|].
  cbn [orb] in Htest. rewrite Htest. reflexivity.
Qed.

(** C10 (amended).  On a loaded non-empty table, every signal
    [generate_signal] returns has the Close of the last row as entry price,
    in the Buy, Sell and Hold branches alike; a signal is returned whenever
    the stop-loss distance has a magnitude below [2^1024 - 2^970] (the
    integers that convert to a float), and in the Hold branch without that
    condition. *)
Theorem C10_entry_price (w : World) (rows : DataFrame) (r : Row)
    (rsi_value sma : float) :
  data (self w) = Some (rows ++ [r])%list ->
  RSI r = Some rsi_value -> SMA r = Some sma ->
  (forall s, fst (generate_signal w) = Ok s -> entry_price s = Close (bar r))
  /\ (Z.abs (stop_loss_pips (self w)) < float_limit ->
      exists s, fst (generate_signal w) = Ok s
                /\ entry_price s = Close (bar r))
  /\ (ltb rsi_value (lit 30) && ltb sma (Close (bar r)) = false ->
      ltb (lit 70) rsi_value && ltb (Close (bar r)) sma = false ->
      exists s, fst (generate_signal w) = Ok s
                /\ action s = Hold /\ entry_price s = Close (bar r)).
Proof.
  intros Hdata Hrsi Hsma.
  rewrite (generate_signal_loaded w rows r Hdata).
  unfold branch. rewrite Hrsi, Hsma. cbn [getitem rbind fst].
  split; [|split].
  - intros s.
    destruct (ltb rsi_value (lit 30) && ltb sma (Close (bar r)));
      [|destruct (ltb (lit 70) rsi_value && ltb (Close (bar r)) sma)];
      try destruct (int_mul (stop_loss_pips (self w)) (pip_value (self w)));
      cbn [rbind]; intros Hs; try discriminate;
      injection Hs as <-; reflexivity.
  - intros Hrange. unfold int_mul. rewrite (of_int_ok _ Hrange). cbn [rbind].
    destruct (ltb rsi_value (lit 30) && ltb sma (Close (bar r)));
      [|destruct (ltb (lit 70) rsi_value && ltb (Close (bar r)) sma)];
      eexists; split; reflexivity.
  - intros -> ->. eexists. repeat split.
Qed.

End SignalClaims.

(** *** Concrete runs of [generate_signal] *)

(** RSI 25, close 110, SMA 100, fifty pips of value 10: Buy at 110 with take
    profit 610 and stop loss -390. *)
Lemma C1_buy_signal_witness :
  generate_signal (loaded_world sample_model [oversold_row])
  = (Ok {| action := Buy; entry_price := lit 110;
           take_profit := Some (lit 610); stop_loss := Some (lit (-390)) |},
     loaded_world sample_model [oversold_row]).
Proof.
  refine (eq_trans
    (C1_buy_signal (loaded_world sample_model [oversold_row]) [] oversold_row
       (lit 25) (lit 100) _ _ _ _ _ _) _);
    vm_compute; reflexivity.
Defined.

(** The same row with a stop-loss distance of [2^1024] pips: the Buy test
    passes and the call raises instead of returning a signal. *)
Lemma C1_overflow_counterexample :
  data (self (loaded_world huge_model [oversold_row])) = Some [oversold_row]
  /\ RSI oversold_row = Some (lit 25)
  /\ SMA oversold_row = Some (lit 100)
  /\ ltb (lit 25) (lit 30) = true
  /\ ltb (lit 100) (Close (bar oversold_row)) = true
  /\ fst (generate_signal (loaded_world huge_model [oversold_row]))
     = Raise overflow_error.
Proof. vm_compute. repeat split. Qed.

(** RSI 75, close 90, SMA 100, fifty pips of value 10: Sell at 90 with take
    profit -410 and stop loss 590. *)
Lemma C2_sell_signal_witness :
  generate_signal (loaded_world sample_model [overbought_row])
  = (Ok {| action := Sell; entry_price := lit 90;
           take_profit := Some (lit (-410)); stop_loss := Some (lit 590) |},
     loaded_world sample_model [overbought_row]).
Proof.
  refine (eq_trans
    (C2_sell_signal (loaded_world sample_model [overbought_row]) []
       overbought_row (lit 75) (lit 100) _ _ _ _ _ _) _);
    vm_compute; reflexivity.
Defined.

Lemma C2_overflow_counterexample :
  data (self (loaded_world huge_model [overbought_row])) = Some [overbought_row]
  /\ RSI overbought_row = Some (lit 75)
  /\ SMA overbought_row = Some (lit 100)
  /\ ltb (lit 70) (lit 75) = true
  /\ ltb (Close (bar overbought_row)) (lit 100) = true
  /\ fst (generate_signal (loaded_world huge_model [overbought_row]))
     = Raise overflow_error.
Proof. vm_compute. repeat split. Qed.

(** RSI 50, close 100, SMA 100: Hold; and so is an RSI of exactly 30 with
    the close above the average. *)
Lemma C3_hold_signal_witness :
  generate_signal (loaded_world sample_model [quiet_row])
  = (Ok {| action := Hold; entry_price := lit 100;
           take_profit := None; stop_loss := None |},
     loaded_world sample_model [quiet_row])
  /\ generate_signal
       (loaded_world sample_model [sample_row (lit 30) (lit 110) (lit 100)])
     = (Ok {| action := Hold; entry_price := lit 110;
              take_profit := None; stop_loss := None |},
        loaded_world sample_model [sample_row (lit 30) (lit 110) (lit 100)]).
Proof.
  split.
  - refine (proj1
      (C3_hold_signal (loaded_world sample_model [quiet_row]) [] quiet_row
         (lit 50) (lit 100) _ _ _) _ _); vm_compute; reflexivity.
  - refine (proj1 (proj2
      (C3_hold_signal
         (loaded_world sample_model [sample_row (lit 30) (lit 110) (lit 100)])
         [] (sample_row (lit 30) (lit 110) (lit 100)) (lit 30) (lit 100)
         _ _ _)) _); vm_compute; reflexivity.
Defined.

(** A one-row table and a three-row table ending with the same values. *)
Lemma C8_last_row_only_witness :
  fst (generate_signal (loaded_world sample_model [oversold_row]))
  = fst (generate_signal
           (loaded_world sample_model
              [quiet_row; overbought_row; oversold_row])).
Proof.
  apply (C8_last_row_only
           (loaded_world sample_model [oversold_row])
           (loaded_world sample_model [quiet_row; overbought_row; oversold_row])
           [] [quiet_row; overbought_row] oversold_row oversold_row);
    reflexivity.
Defined.

Lemma C10_entry_price_witness :
  exists s,
    fst (generate_signal (loaded_world sample_model [oversold_row])) = Ok s
    /\ entry_price s = lit 110.
Proof.
  refine (proj1 (proj2
    (C10_entry_price (loaded_world sample_model [oversold_row]) [] oversold_row
       (lit 25) (lit 100) _ _ _)) _); vm_compute; reflexivity.
Defined.

(** With a stop-loss distance of [2^1024] pips and an oversold last row, no
    signal, hence no entry price, is returned. *)
Lemma C10_no_entry_counterexample :
  data (self (loaded_world huge_model [quiet_row; oversold_row]))
  = Some [quiet_row; oversold_row]
  /\ forall s,
       fst (generate_signal (loaded_world huge_model [quiet_row; oversold_row]))
       <> Ok s.
Proof. split; [reflexivity|]. intros s. vm_compute. discriminate. Qed.

(** ** [calculate_lot_size] *)

Section LotSize.

Lemma truediv_hundred (x : float) : truediv x (lit 100) = Ok (div x (lit 100)).
Proof. reflexivity. Qed.

Lemma calculate_lot_size_params (w w' : World) :
  params (self w') = params (self w) ->
  fst (calculate_lot_size w') = fst (calculate_lot_size w).
Proof.
  unfold params. intros H. injection H as _ Hbal Hrisk Hpips Hpip.
  unfold calculate_lot_size, bind, get_self, lift, ret.
  rewrite !truediv_hundred, Hbal, Hrisk, Hpips, Hpip.
  destruct (int_mul (stop_loss_pips (self w)) (pip_value (self w)))
    as [d|e]; [|reflexivity].
  destruct (truediv _ d); reflexivity.
Qed.

(** C4 (amended).  With [account_balance >= 100], [risk_percent] in
    [0.1, 5.0], [stop_loss_pips >= 10] and below [2^1024 - 2^970] (the
    integers that convert to a float) and [pip_value >= 0.01],
    [calculate_lot_size] returns
    [round((account_balance * (risk_percent / 100))
           / (stop_loss_pips * pip_value), 2)];
    the outcome is a function of the five parameters alone, whatever table
    the model holds and before any fetch; and for 1000, 1.0, 50 and 10.0 it
    is 0.02. *)
Theorem C4_lot_size (w : World) :
  (leb (lit 100) (account_balance (self w)) = true ->
   leb (dec 1 1) (risk_percent (self w)) = true ->
   leb (risk_percent (self w)) (lit 5) = true ->
   10 <= stop_loss_pips (self w) < float_limit ->
   leb (dec 1 2) (pip_value (self w)) = true ->
   calculate_lot_size w
   = (Ok (round
            (div (mul (account_balance (self w))
                      (div (risk_percent (self w)) (lit 100)))
                 (mul (lit (stop_loss_pips (self w))) (pip_value (self w))))
            2),
      w))
  /\ (forall w', params (self w') = params (self w) ->
                 fst (calculate_lot_size w') = fst (calculate_lot_size w))
  /\ calculate_lot_size
       (new_world (__init__ "EURUSD" (lit 1000) (lit 1) 50 (lit 10)))
     = (Ok (dec 2 2),
        new_world (__init__ "EURUSD" (lit 1000) (lit 1) 50 (lit 10))).
Proof.
  split; [|split].
  - intros _ _ _ [Hpips Hrange] Hpip.
    assert (Hconv : of_int (stop_loss_pips (self w))
                    = Ok (lit (stop_loss_pips (self w))))
      by (apply of_int_ok; lia).
    unfold calculate_lot_size, bind, get_self, lift, ret.
    rewrite truediv_hundred. unfold int_mul. rewrite Hconv. cbn [rbind].
    unfold truediv at 1.
    rewrite (lot_divisor_nonzero _ _ _ Hpips Hconv Hpip). reflexivity.
  - intros w'. apply calculate_lot_size_params.
  - vm_compute. reflexivity.
Qed.

End LotSize.

(** A balance of 2500 risking 2.5 % over 40 pips of value 0.25, on a model
    that holds a table: the lot size is 6.25. *)
Lemma C4_lot_size_witness :
  calculate_lot_size
    (loaded_world (__init__ "GBPUSD" (lit 2500) (dec 25 1) 40 (dec 25 2))
       [quiet_row])
  = (Ok (dec 625 2),
     loaded_world (__init__ "GBPUSD" (lit 2500) (dec 25 1) 40 (dec 25 2))
       [quiet_row]).
Proof.
  refine (eq_trans
    (proj1
       (C4_lot_size
          (loaded_world (__init__ "GBPUSD" (lit 2500) (dec 25 1) 40 (dec 25 2))
             [quiet_row])) _ _ _ _ _) _);
    try (vm_compute; reflexivity).
  split; [vm_compute; discriminate | vm_compute; reflexivity].
Defined.

(** The four bounds hold for a stop-loss distance of [2^1024] pips, and the
    call raises. *)
Lemma C4_overflow_counterexample :
  leb (lit 100) (account_balance huge_model) = true
  /\ leb (dec 1 1) (risk_percent huge_model) = true
  /\ leb (risk_percent huge_model) (lit 5) = true
  /\ 10 <= stop_loss_pips huge_model
  /\ leb (dec 1 2) (pip_value huge_model) = true
  /\ fst (calculate_lot_size (new_world huge_model))
     = Raise overflow_error.
Proof.
  repeat split; try (vm_compute; reflexivity).
  vm_compute. discriminate.
Qed.

(** ** [fetch_data], case by case *)

Section Fetch.

Context `{Libraries}.

Ltac unfold_fetch w :=
  unfold fetch_data, download, indicator, try_except;
  unfold set_data, modify_data, log, now, lift, get_self, raise, ret;
  unfold bind; cbn [self calls fst snd];
  fold (ticker_of (self w)).

Lemma fetch_data_provider_raises (w : World) (interval period : string)
    (e : exn) :
  yf_download (List.length (calls w)) (ticker_of (self w)) period interval
  = Raise e ->
  fetch_data interval period w
  = (Raise (fetch_error e),
     {| self := self w;
        calls := (calls w
                  ++ [Download (ticker_of (self w)) period interval])%list |}).
Proof.
  intros Hyf.
  unfold_fetch w. rewrite Hyf. reflexivity.
Qed.

Lemma fetch_data_empty (w : World) (interval period : string) :
  yf_download (List.length (calls w)) (ticker_of (self w)) period interval
  = Ok [] ->
  fetch_data interval period w
  = (Raise (fetch_error no_data),
     {| self := with_data (self w) (Some []);
        calls := (calls w
                  ++ [Download (ticker_of (self w)) period interval])%list |}).
Proof.
  intros Hyf.
  unfold_fetch w. rewrite Hyf. reflexivity.
Qed.

Lemma fetch_data_single (w : World) (interval period : string) (b : PriceBar) :
  yf_download (List.length (calls w)) (ticker_of (self w)) period interval
  = Ok [b] ->
  fetch_data interval period w
  = (Raise (fetch_error (scalar_error "rolling")),
     {| self := with_data (self w) (Some [raw_row b]);
        calls := (calls w ++ [Download (ticker_of (self w)) period interval;
                              ComputeSMA 14])%list |}).
Proof.
  intros Hyf.
  unfold_fetch w. rewrite Hyf.
  cbn. rewrite <- app_assoc. reflexivity.
Qed.

Lemma fetch_data_series (w : World) (interval period : string)
    (b1 b2 : PriceBar) (bars : list PriceBar) :
  yf_download (List.length (calls w)) (ticker_of (self w)) period interval
  = Ok (b1 :: b2 :: bars) ->
  fetch_data interval period w
  = (Ok tt,
     {| self := with_data (self w)
                  (Some (dropna (enriched (b1 :: b2 :: bars))));
        calls := (calls w ++ [Download (ticker_of (self w)) period interval;
                              ComputeSMA 14; ComputeEMA 14; ComputeRSI 14;
                              DropNA])%list |}).
Proof.
  intros Hyf.
  unfold_fetch w. rewrite Hyf. unfold enriched.
  cbn [self calls with_data data option_map empty map squeeze fst snd
       currency_pair account_balance risk_percent stop_loss_pips pip_value].
  rewrite <- !app_assoc. reflexivity.
Qed.

(** A successful [fetch_data] is one whose provider call answered with at
    least two bars. *)
Lemma fetch_data_ok_inv (w w' : World) (interval period : string) :
  fetch_data interval period w = (Ok tt, w') ->
  exists bars,
    yf_download (List.length (calls w)) (ticker_of (self w)) period interval
    = Ok bars
    /\ (2 <= List.length bars)%nat
    /\ w' = {| self := with_data (self w) (Some (dropna (enriched bars)));
               calls := (calls w
                         ++ [Download (ticker_of (self w)) period interval;
                             ComputeSMA 14; ComputeEMA 14; ComputeRSI 14;
                             DropNA])%list |}.
Proof.
  intros Hfetch.
  destruct (yf_download (List.length (calls w)) (ticker_of (self w)) period
              interval)
    as [[|b1 [|b2 bars]]|e] eqn:Hyf.
  - rewrite (fetch_data_empty w interval period Hyf) in Hfetch. discriminate.
  - rewrite (fetch_data_single w interval period b1 Hyf) in Hfetch.
    discriminate.
  - rewrite (fetch_data_series w interval period b1 b2 bars Hyf) in Hfetch.
    injection Hfetch as <-. exists (b1 :: b2 :: bars).
    split; [reflexivity|]. split; [cbn; lia | reflexivity].
  - rewrite (fetch_data_provider_raises w interval period e Hyf) in Hfetch.
    discriminate.
Qed.

End Fetch.

(** ** Claims about [fetch_data] and the object's state *)

Section FetchClaims.

Context `{Libraries}.

(** C5.  When the provider answers with an empty table, [fetch_data] fails
    with the data-unavailable error (the [ValueError] whose message starts
    with "Error fetching data: "), which carries the cause, and no indicator
    is computed: the only library call made is the download. *)
Theorem C5_empty_fetch (w : World) (interval period : string) :
  yf_download (List.length (calls w)) (ticker_of (self w)) period interval
  = Ok [] ->
  exists e w',
    fetch_data interval period w = (Raise e, w')
    /\ exn_cls e = ValueError
    /\ str e = "Error fetching data: " ++ str no_data
    /\ exn_context e = Some no_data
    /\ calls w'
       = (calls w ++ [Download (ticker_of (self w)) period interval])%list
    /\ forall c, In c (skipn (List.length (calls w)) (calls w')) ->
                 indicator_call c = false.
Proof.
  intros Hyf. eexists. eexists.
  split; [apply (fetch_data_empty w interval period Hyf)|].
  cbn [calls]. rewrite skipn_app, skipn_all, Nat.sub_diag. cbn [skipn app].
  repeat split. intros c [<-|[]]. reflexivity.
Qed.




(** *** Row elimination *)

Lemma assign_Forall (set : Row -> float -> Row) (P Q : Row -> Prop) :
  (forall r x, P r -> Q (set r x)) ->
  forall df col, Forall P df -> Forall Q (assign set col df).
Proof.
  intros Hset. induction df as [|r df IH]; intros col Hdf; [constructor|].
  inversion Hdf as [|? ? Hr Hrest]; subst.
  destruct col as [|x col]; cbn [assign]; constructor; auto.
Qed.

Lemma assign_bar (set : Row -> float -> Row) :
  (forall r x, bar (set r x) = bar r) ->
  forall df col, map bar (assign set col df) = map bar df.
Proof.
  intros Hset. induction df as [|r df IH]; intros col; [reflexivity|].
  destruct col as [|x col]; cbn [assign map]; rewrite Hset, IH; reflexivity.
Qed.

Lemma enriched_has_indicators (bars : list PriceBar) :
  Forall has_indicators (enriched bars).
Proof.
  unfold enriched.
  apply assign_Forall
    with (P := fun r => (exists x, SMA r = Some x)
                        /\ (exists y, EMA r = Some y)).
  { intros r z [Hs He]. repeat split; cbn; eauto. }
  apply assign_Forall with (P := fun r => exists x, SMA r = Some x).
  { intros r y Hs. split; cbn; eauto. }
  apply assign_Forall with (P := fun _ => True).
  { intros r x _. cbn. eauto. }
  apply Forall_forall. auto.
Qed.

Lemma enriched_bars (bars : list PriceBar) : map bar (enriched bars) = bars.
Proof.
  unfold enriched. rewrite !assign_bar by reflexivity.
  rewrite map_map. cbn. apply map_id.
Qed.

Lemma dropna_leading_block (dropped kept : DataFrame) :
  Forall (fun r => has_na r = true) dropped ->
  Forall (fun r => has_na r = false) kept ->
  dropna (dropped ++ kept)%list = kept.
Proof.
  intros Hd Hk. unfold dropna. rewrite filter_app.
  replace (filter (fun r => negb (has_na r)) dropped) with (@nil Row).
  - cbn [app]. induction Hk as [|r kept Hr _ IH]; [reflexivity|].
    cbn [filter]. rewrite Hr, IH. reflexivity.
  - induction Hd as [|r dropped Hr _ IH]; [reflexivity|].
    cbn [filter]. rewrite Hr. exact IH.
Qed.

Lemma complete_row (r : Row) :
  has_indicators r -> has_na r = false ->
  isnan (Close (bar r)) = false
  /\ (exists x, SMA r = Some x /\ isnan x = false)
  /\ (exists y, EMA r = Some y /\ isnan y = false)
  /\ (exists z, RSI r = Some z /\ isnan z = false).
Proof.
  intros ((x & Hx) & (y & Hy) & (z & Hz)) Hna.
  unfold has_na in Hna. rewrite Hx, Hy, Hz in Hna. cbn [opt_isnan] in Hna.
  repeat (apply orb_false_iff in Hna; destruct Hna as [Hna ?]).
  repeat split; eauto.
Qed.

(** C7 (amended).  After a successful [fetch_data] the retained table is
    the fetched table, indicators attached, without the rows that miss a
    value in any column (prices and volume included), in the original order; so
    no retained row misses Close, SMA, EMA or RSI.  When the rows missing a
    value are a leading block of the table, the retained rows are the
    contiguous suffix after that block. *)
Theorem C7_retained_rows (w w' : World) (interval period : string) :
  fetch_data interval period w = (Ok tt, w') ->
  exists bars,
    yf_download (List.length (calls w)) (ticker_of (self w)) period interval
    = Ok bars
    /\ map bar (enriched bars) = bars
    /\ data (self w')
       = Some (filter (fun r => negb (has_na r)) (enriched bars))
    /\ (forall kept, data (self w') = Some kept ->
        forall r, In r kept ->
          isnan (Close (bar r)) = false
          /\ (exists x, SMA r = Some x /\ isnan x = false)
          /\ (exists y, EMA r = Some y /\ isnan y = false)
          /\ (exists z, RSI r = Some z /\ isnan z = false))
    /\ (forall dropped kept,
          enriched bars = (dropped ++ kept)%list ->
          Forall (fun r => has_na r = true) dropped ->
          Forall (fun r => has_na r = false) kept ->
          data (self w') = Some kept
          /\ map bar kept = skipn (List.length dropped) bars).
Proof.
  intros Hfetch.
  destruct (fetch_data_ok_inv w w' interval period Hfetch)
    as (bars & Hyf & _ & ->).
  exists bars. cbn [self data with_data].
  split; [exact Hyf|]. split; [apply enriched_bars|].
  split; [reflexivity|]. split.
  - intros kept [= <-] r Hin.
    apply filter_In in Hin. destruct Hin as [Hin Hna].
    apply negb_true_iff in Hna.
    apply complete_row; [|exact Hna].
    pose proof (enriched_has_indicators bars) as Hall.
    rewrite Forall_forall in Hall. apply Hall. exact Hin.
  - intros dropped kept Hsplit Hd Hk. split.
    + rewrite Hsplit. f_equal. apply dropna_leading_block; assumption.
    + rewrite <- (enriched_bars bars) at 1. rewrite Hsplit, map_app.
      rewrite <- (length_map bar dropped).
      rewrite skipn_app, skipn_all, Nat.sub_diag. reflexivity.
Qed.

(** *** The parameters are never written *)

Lemma preserves_ret {A : Type} (a : A) : preserves (ret a).
Proof. intros w. reflexivity. Qed.

Lemma preserves_raise {A : Type} (e : exn) : preserves (@raise A e).
Proof. intros w. reflexivity. Qed.

Lemma preserves_lift {A : Type} (r : result A) : preserves (lift r).
Proof. intros w. reflexivity. Qed.

Lemma preserves_get_self : preserves get_self.
Proof. intros w. reflexivity. Qed.

Lemma preserves_now : preserves now.
Proof. intros w. reflexivity. Qed.

Lemma preserves_log (c : LibCall) : preserves (log c).
Proof. intros w. reflexivity. Qed.

Lemma preserves_set_data (df : DataFrame) : preserves (set_data df).
Proof. intros w. reflexivity. Qed.

Lemma preserves_modify_data (f : DataFrame -> DataFrame) :
  preserves (modify_data f).
Proof. intros w. reflexivity. Qed.

Lemma preserves_bind {A B : Type} (c : M A) (k : A -> M B) :
  preserves c -> (forall a, preserves (k a)) -> preserves (bind c k).
Proof.
  intros Hc Hk w. unfold bind. specialize (Hc w).
  destruct (c w) as [[a|e] w1]; cbn [snd] in *; [|exact Hc].
  rewrite (Hk a w1). exact Hc.
Qed.

Lemma preserves_try_except {A : Type} (body : M A) (handler : exn -> M A) :
  preserves body -> (forall e, preserves (handler e)) ->
  preserves (try_except body handler).
Proof.
  intros Hb Hh w. unfold try_except. specialize (Hb w).
  destruct (body w) as [[a|e] w1]; cbn [snd] in *; [exact Hb|].
  rewrite (Hh e w1). exact Hb.
Qed.

Create HintDb frame.
#[local] Hint Resolve preserves_ret preserves_raise preserves_lift
  preserves_get_self preserves_now preserves_log preserves_set_data
  preserves_modify_data : frame.

Ltac frame :=
  repeat first
    [ apply preserves_bind; [|intros ?]
    | apply preserves_try_except; [|intros ?]
    | match goal with
      | |- preserves (if ?b then _ else _) => destruct b
      | |- preserves (match ?x with _ => _ end) => destruct x
      end
    | solve [auto with frame] ].

Lemma preserves_indicator (c : LibCall) (f : list float -> nat -> list float)
    (attr : string) (close_prices : Squeezed) (window : nat) :
  preserves (indicator c f attr close_prices window).
Proof. unfold indicator. frame. Qed.

Lemma preserves_download (ticker period interval : string) :
  preserves (download ticker period interval).
Proof. unfold download. frame. Qed.

Lemma preserves_fetch_data (interval period : string) :
  preserves (fetch_data interval period).
Proof.
  unfold fetch_data.
  pose proof preserves_indicator. pose proof preserves_download.
  frame; auto.
Qed.

Lemma preserves_generate_signal : preserves generate_signal.
Proof. unfold generate_signal. frame. Qed.

Lemma preserves_calculate_lot_size : preserves calculate_lot_size.
Proof. unfold calculate_lot_size. frame. Qed.

(** C9.  The five parameters are what the constructor was given, and
    [fetch_data] (whatever its outcome), [generate_signal] and
    [calculate_lot_size] leave them unchanged. *)
Theorem C9_parameters_unchanged (pair : string) (balance risk : float)
    (pips : Z) (pip : float) (w : World) (interval period : string) :
  params (__init__ pair balance risk pips pip)
  = (pair, balance, risk, pips, pip)
  /\ params (self (snd (fetch_data interval period w))) = params (self w)
  /\ params (self (snd (generate_signal w))) = params (self w)
  /\ params (self (snd (calculate_lot_size w))) = params (self w).
Proof.
  split; [reflexivity|]. split; [apply preserves_fetch_data|].
  split; [apply preserves_generate_signal | apply preserves_calculate_lot_size].
Qed.

End FetchClaims.

(** *** Concrete runs of [fetch_data] *)

Lemma C5_empty_fetch_witness :
  exists e w',
    @fetch_data empty_libraries default_interval default_period
      (new_world sample_model)
    = (Raise e, w')
    /\ exn_cls e = ValueError
    /\ str e = "Error fetching data: " ++ str no_data
    /\ exn_context e = Some no_data
    /\ calls w' = [Download "EURUSD=X" "1mo" "1d"]
    /\ forall c, In c (calls w') -> indicator_call c = false.
Proof.
  apply (@C5_empty_fetch empty_libraries (new_world sample_model)
           default_interval default_period).
  reflexivity.
Defined.




(** The sample run: seventeen bars fetched, the first fourteen dropped for
    want of indicator values, the last three retained. *)
Lemma C7_retained_rows_witness :
  data (self (snd (@fetch_data sample_libraries default_interval
                     default_period (new_world sample_model))))
  = Some (skipn 14 (@enriched sample_libraries sample_bars))
  /\ map bar (skipn 14 (@enriched sample_libraries sample_bars))
     = skipn 14 sample_bars.
Proof.
  destruct (@C7_retained_rows sample_libraries (new_world sample_model)
              (snd (@fetch_data sample_libraries default_interval
                      default_period (new_world sample_model)))
              default_interval default_period)
    as (bars & Hyf & _ & _ & _ & Hsuffix).
  - vm_compute. reflexivity.
  - injection Hyf as <-.
    apply (Hsuffix (firstn 14 (@enriched sample_libraries sample_bars))
                   (skipn 14 (@enriched sample_libraries sample_bars))).
    + symmetry. apply firstn_skipn.
    + apply Forall_forall. apply forallb_forall. vm_compute. reflexivity.
    + apply Forall_forall. intros r Hin. apply negb_true_iff. revert r Hin.
      apply forallb_forall. vm_compute. reflexivity.
Defined.

(** Seventeen bars fetched, the volume of the sixteenth missing: the fetch
    succeeds, rows 15 and 17 are retained, row 16 is dropped although its
    Close, SMA, EMA and RSI are all there, and the retained rows are no
    suffix of the fetched ones.  (Whatever the indicator engine, row 16 goes;
    the reference engine has values from row 15 on.) *)
Lemma C7_gap_counterexample :
  fst (@fetch_data gap_libraries default_interval default_period
         (new_world sample_model)) = Ok tt
  /\ map timestamp gap_bars
     = [1; 2; 3; 4; 5; 6; 7; 8; 9; 10; 11; 12; 13; 14; 15; 16; 17]
  /\ option_map (map (fun r => timestamp (bar r))) (data (self gap_world))
     = Some [15; 17]
  /\ (exists r,
        nth_error (@enriched gap_libraries gap_bars) 15 = Some r
        /\ timestamp (bar r) = 16
        /\ isnan (Close (bar r)) = false
        /\ (exists x, SMA r = Some x /\ isnan x = false)
        /\ (exists y, EMA r = Some y /\ isnan y = false)
        /\ (exists z, RSI r = Some z /\ isnan z = false))
  /\ forall k kept,
       data (self gap_world) = Some kept ->
       map bar kept <> skipn k gap_bars.
Proof.
  split; [vm_compute; reflexivity|].
  split; [vm_compute; reflexivity|].
  split; [vm_compute; reflexivity|].
  split.
  - eexists. split; [vm_compute; reflexivity|].
    cbn [bar timestamp Close SMA EMA RSI].
    repeat split; try (eexists; split); reflexivity.
  - intros k kept Hkept Heq.
    assert (Hts : option_map (map (fun r => timestamp (bar r)))
                    (data (self gap_world)) = Some [15; 17])
      by (vm_compute; reflexivity).
    rewrite Hkept in Hts. cbn [option_map] in Hts. injection Hts as Hts.
    rewrite <- map_map, Heq in Hts. clear - Hts.
    do 17 (destruct k as [|k]; [vm_compute in Hts; discriminate|]).
    destruct k; vm_compute in Hts; discriminate.
Qed.

(** *** A whole run *)

(** The sample series end to end: the fetch succeeds through the download,
    the three indicators and the row elimination; the last retained bar
    closed at 110 with an RSI between 30 and 70, so the signal is Hold; and
    the lot size is 0.02. *)
Example sample_run :
  let w := snd (@fetch_data sample_libraries default_interval default_period
                  (new_world sample_model)) in
  calls w = [Download "EURUSD=X" "1mo" "1d"; ComputeSMA 14; ComputeEMA 14;
             ComputeRSI 14; DropNA]
  /\ fst (generate_signal w)
     = Ok {| action := Hold; entry_price := lit 110;
             take_profit := None; stop_loss := None |}
  /\ fst (calculate_lot_size w) = Ok (dec 2 2).
Proof. vm_compute. repeat split. Qed.

(** * Further properties of the code *)

(** ** The ticker table *)

Lemma dict_get_absent (d : list (string * string)) (key default : string) :
  ~ In key (map fst d) -> dict_get d key default = default.
Proof.
  induction d as [|[k v] d IH]; intros Hnot; [reflexivity|].
  cbn [dict_get]. destruct (String.eqb_spec k key) as [->|_].
  - exfalso. apply Hnot. left. reflexivity.
  - apply IH. intros Hin. apply Hnot. right. exact Hin.
Qed.

Lemma dict_get_present (d : list (string * string))
    (key value default : string) :
  NoDup (map fst d) -> In (key, value) d -> dict_get d key default = value.
Proof.
  induction d as [|[k v] d IH]; intros Hnodup Hin; [destruct Hin|].
  cbn [map fst] in Hnodup. inversion Hnodup as [|? ? Hfresh Hrest]; subst.
  cbn [dict_get]. destruct Hin as [[= -> ->]|Hin].
  - rewrite String.eqb_refl. reflexivity.
  - destruct (String.eqb_spec k key) as [->|_]; [|apply IH; assumption].
    exfalso. apply Hfresh. apply in_map_iff. exists (key, value).
    split; [reflexivity | exact Hin].
Qed.

Lemma ticker_map_keys : NoDup (map fst ticker_map).
Proof.
  cbn. repeat constructor; cbn; intuition discriminate.
Qed.

Section FetchProperties.

Context `{Libraries}.

(** X1.  The provider is asked for the ticker the table gives for the
    configured pair, and for the pair itself when the table has no entry for
    it; with the period and the interval the caller passed. *)
Theorem fetch_data_asks_ticker (w : World) (interval period : string) :
  nth_error (calls (snd (fetch_data interval period w))) (List.length (calls w))
  = Some (Download (ticker_of (self w)) period interval)
  /\ (forall ticker, In (currency_pair (self w), ticker) ticker_map ->
                     ticker_of (self w) = ticker)
  /\ (~ In (currency_pair (self w)) (map fst ticker_map) ->
      ticker_of (self w) = currency_pair (self w)).
Proof.
  split; [|split].
  - destruct (yf_download (List.length (calls w)) (ticker_of (self w)) period
                interval)
      as [[|b1 [|b2 bars]]|e] eqn:Hyf.
    + rewrite (fetch_data_empty w interval period Hyf). cbn [snd calls].
      rewrite nth_error_app2, Nat.sub_diag by lia. reflexivity.
    + rewrite (fetch_data_single w interval period b1 Hyf). cbn [snd calls].
      rewrite nth_error_app2, Nat.sub_diag by lia. reflexivity.
    + rewrite (fetch_data_series w interval period b1 b2 bars Hyf).
      cbn [snd calls].
      rewrite nth_error_app2, Nat.sub_diag by lia. reflexivity.
    + rewrite (fetch_data_provider_raises w interval period e Hyf).
      cbn [snd calls].
      rewrite nth_error_app2, Nat.sub_diag by lia. reflexivity.
  - intros ticker Hin.
    apply dict_get_present; [apply ticker_map_keys | exact Hin].
  - apply dict_get_absent.
Qed.

(** The three ways a fetch can fail, and what each leaves behind. *)
Lemma fetch_data_raise_inv (w w' : World) (interval period : string) (e : exn) :
  fetch_data interval period w = (Raise e, w') ->
  (exists cause,
      yf_download (List.length (calls w)) (ticker_of (self w)) period interval
      = Raise cause
      /\ e = fetch_error cause /\ self w' = self w)
  \/ (yf_download (List.length (calls w)) (ticker_of (self w)) period interval
      = Ok []
      /\ e = fetch_error no_data /\ self w' = with_data (self w) (Some []))
  \/ (exists b,
        yf_download (List.length (calls w)) (ticker_of (self w)) period interval
        = Ok [b]
        /\ e = fetch_error (scalar_error "rolling")
        /\ self w' = with_data (self w) (Some [raw_row b])).
Proof.
  intros Hfetch.
  destruct (yf_download (List.length (calls w)) (ticker_of (self w)) period
              interval)
    as [[|b1 [|b2 bars]]|cause] eqn:Hyf.
  - rewrite (fetch_data_empty w interval period Hyf) in Hfetch.
    injection Hfetch as <- <-. right. left. auto.
  - rewrite (fetch_data_single w interval period b1 Hyf) in Hfetch.
    injection Hfetch as <- <-. right. right. exists b1. auto.
  - rewrite (fetch_data_series w interval period b1 b2 bars Hyf) in Hfetch.
    discriminate.
  - rewrite (fetch_data_provider_raises w interval period cause Hyf) in Hfetch.
    injection Hfetch as <- <-. left. exists cause. auto.
Qed.

(** X2.  Whatever goes wrong inside [fetch_data] (the provider raising, an
    empty answer, an indicator failing), the caller gets a [ValueError] whose
    message is "Error fetching data: " followed by the message of the
    original exception, which it carries as context. *)
Theorem fetch_data_raises_ValueError (w w' : World) (interval period : string)
    (e : exn) :
  fetch_data interval period w = (Raise e, w') ->
  exn_cls e = ValueError
  /\ exists cause,
       exn_context e = Some cause
       /\ str e = "Error fetching data: " ++ str cause.
Proof.
  intros Hfetch.
  destruct (fetch_data_raise_inv w w' interval period e Hfetch)
    as [(cause & _ & -> & _)|[(_ & -> & _)|(b & _ & -> & _)]];
    (split; [reflexivity|]); eexists; split; reflexivity.
Qed.

(** X3.  One call of [fetch_data] asks the provider once, and never again:
    the library calls it adds are the download alone, or the download and the
    SMA, or the download, the three indicators in the order SMA, EMA, RSI and
    the row elimination; the last is the case exactly when it succeeds. *)
Theorem fetch_data_calls (w : World) (interval period : string) :
  exists rest,
    calls (snd (fetch_data interval period w))
    = (calls w ++ Download (ticker_of (self w)) period interval :: rest)%list
    /\ (rest = []
        \/ rest = [ComputeSMA 14]
        \/ rest = [ComputeSMA 14; ComputeEMA 14; ComputeRSI 14; DropNA])
    /\ (fst (fetch_data interval period w) = Ok tt
        <-> rest = [ComputeSMA 14; ComputeEMA 14; ComputeRSI 14; DropNA]).
Proof.
  destruct (yf_download (List.length (calls w)) (ticker_of (self w)) period
              interval)
    as [[|b1 [|b2 bars]]|e] eqn:Hyf.
  - rewrite (fetch_data_empty w interval period Hyf). exists [].
    cbn [fst snd calls]. repeat split; auto; discriminate.
  - rewrite (fetch_data_single w interval period b1 Hyf).
    exists [ComputeSMA 14]. cbn [fst snd calls].
    repeat split; auto; discriminate.
  - rewrite (fetch_data_series w interval period b1 b2 bars Hyf).
    exists [ComputeSMA 14; ComputeEMA 14; ComputeRSI 14; DropNA].
    cbn [fst snd calls]. repeat split; auto.
  - rewrite (fetch_data_provider_raises w interval period e Hyf). exists [].
    cbn [fst snd calls]. repeat split; auto; discriminate.
Qed.

Lemma generate_signal_self (w1 w2 : World) :
  self w1 = self w2 -> fst (generate_signal w1) = fst (generate_signal w2).
Proof.
  intros Hself. unfold generate_signal, bind, get_self, lift, ret, raise.
  rewrite Hself. destruct (data (self w2)) as [df|]; [|reflexivity].
  destruct (empty df); [reflexivity|].
  destruct (iloc_last df) as [r|e]; [|reflexivity].
  destruct (getitem "RSI" (RSI r)) as [x|e]; [|reflexivity].
  destruct (getitem "SMA" (SMA r)) as [y|e]; [|reflexivity].
  destruct (ltb x (lit 30) && ltb y (Close (bar r))).
  - destruct (int_mul (stop_loss_pips (self w2)) (pip_value (self w2)));
      reflexivity.
  - destruct (ltb (lit 70) x && ltb (Close (bar r)) y); [|reflexivity].
    destruct (int_mul (stop_loss_pips (self w2)) (pip_value (self w2)));
      reflexivity.
Qed.

(** X4.  When the provider call itself raises, the object is left exactly as
    it was: a table loaded by an earlier fetch stays, and [generate_signal]
    goes on answering from it. *)
Theorem failed_download_keeps_table (w : World) (interval period : string)
    (cause : exn) :
  yf_download (List.length (calls w)) (ticker_of (self w)) period interval
  = Raise cause ->
  fst (fetch_data interval period w) = Raise (fetch_error cause)
  /\ self (snd (fetch_data interval period w)) = self w
  /\ fst (generate_signal (snd (fetch_data interval period w)))
     = fst (generate_signal w).
Proof.
  intros Hyf. rewrite (fetch_data_provider_raises w interval period cause Hyf).
  cbn [fst snd]. repeat split. apply generate_signal_self. reflexivity.
Qed.

(** X5.  When the provider answers with an empty table, the table the object
    held is gone all the same: the object holds the empty table, and
    [generate_signal] fails with the not-ready error until a fetch
    succeeds. *)
Theorem empty_answer_drops_table (w : World) (interval period : string) :
  yf_download (List.length (calls w)) (ticker_of (self w)) period interval
  = Ok [] ->
  data (self (snd (fetch_data interval period w))) = Some []
  /\ generate_signal (snd (fetch_data interval period w))
     = (Raise not_ready, snd (fetch_data interval period w)).
Proof.
  intros Hyf. rewrite (fetch_data_empty w interval period Hyf).
  cbn [snd]. split; reflexivity.
Qed.

(** X6.  When the provider answers with a single bar, the close column
    squeezes to a scalar and the first indicator fails on it: [fetch_data]
    raises after the SMA call, the object is left holding the one-row table
    without indicator columns, and [generate_signal] then fails on the
    missing RSI column with the [KeyError] pandas raises from the index
    lookup's own (which it carries as context), not with the not-ready
    error. *)
Theorem single_bar_fetch (w : World) (interval period : string) (b : PriceBar) :
  yf_download (List.length (calls w)) (ticker_of (self w)) period interval
  = Ok [b] ->
  fst (fetch_data interval period w)
  = Raise (fetch_error (scalar_error "rolling"))
  /\ data (self (snd (fetch_data interval period w))) = Some [raw_row b]
  /\ calls (snd (fetch_data interval period w))
     = (calls w ++ [Download (ticker_of (self w)) period interval;
                    ComputeSMA 14])%list
  /\ fst (generate_signal (snd (fetch_data interval period w)))
     = Raise (key_error "RSI")
  /\ exn_context (key_error "RSI") = Some (Exn KeyError "'RSI'" None).
Proof.
  intros Hyf. rewrite (fetch_data_single w interval period b Hyf).
  cbn [fst snd]. repeat split.
Qed.

End FetchProperties.

(** ** More on binary64 rounding: no underflow to zero *)

Lemma digits2_pos_log2 (p : positive) :
  Zpos (digits2_pos p) = Z.log2 (Zpos p) + 1.
Proof.
  pose proof (digits2_pos_lower p) as Hlo.
  pose proof (digits2_pos_gt p) as Hhi.
  assert (Z.log2 (Zpos p) = Zpos (digits2_pos p) - 1); [|lia].
  apply Z.log2_unique; [lia|].
  replace (Z.succ (Zpos (digits2_pos p) - 1)) with (Zpos (digits2_pos p))
    by lia.
  split; assumption.
Qed.

(** The shift to the target precision keeps the order of magnitude (number
    of digits plus exponent) of a mantissa that is above the least
    subnormal. *)
Lemma shr_fexp_magnitude (p : positive) (e : Z) (l : location) :
  emin prec emax < Zpos (digits2_pos p) + e ->
  exists q,
    shr_m (fst (shr_fexp prec emax (Zpos p) e l)) = Zpos q
    /\ Zpos (digits2_pos q) + snd (shr_fexp prec emax (Zpos p) e l)
       = Zpos (digits2_pos p) + e.
Proof.
  intros Hmag. unfold shr_fexp, shr. cbn [Zdigits2].
  assert (Hs : shr_m (shr_record_of_loc (Zpos p) l) = Zpos p)
    by (destruct l as [|[]]; reflexivity).
  destruct (fexp prec emax (Zpos (digits2_pos p) + e) - e) as [|n|n] eqn:En;
    cbn [fst snd].
  - exists p. split; [exact Hs | reflexivity].
  - rewrite iter_shr_m by (rewrite Hs; lia). rewrite Hs.
    assert (Hn : Zpos n < Zpos (digits2_pos p))
      by (unfold fexp, emin, prec, emax in *; lia).
    assert (Hlog : Z.log2 (Z.shiftr (Zpos p) (Zpos n))
                   = Z.log2 (Zpos p) - Zpos n).
    { rewrite Z.log2_shiftr by lia. rewrite digits2_pos_log2 in Hn. lia. }
    assert (Hpos : 0 < Z.shiftr (Zpos p) (Zpos n)).
    { rewrite Z.shiftr_div_pow2 by lia.
      pose proof (digits2_pos_lower p) as Hlow.
      assert (2 ^ Zpos n <= 2 ^ (Zpos (digits2_pos p) - 1))
        by (apply Z.pow_le_mono_r; lia).
      assert (0 < 2 ^ Zpos n) by (apply Z.pow_pos_nonneg; lia).
      apply Z.div_str_pos. lia. }
    destruct (Z.shiftr (Zpos p) (Zpos n)) as [|q|q] eqn:Eq; try lia.
    exists q. split; [reflexivity|].
    rewrite digits2_pos_log2, Hlog, (digits2_pos_log2 p). lia.
  - exists p. split; [exact Hs | reflexivity].
Qed.

Lemma digits2_pos_mono (p q : positive) :
  (p <= q)%positive -> Zpos (digits2_pos p) <= Zpos (digits2_pos q).
Proof.
  intros Hle. rewrite !digits2_pos_log2.
  assert (Z.log2 (Zpos p) <= Z.log2 (Zpos q)) by (apply Z.log2_le_mono; lia).
  lia.
Qed.

(** Rounding a mantissa that is above the least subnormal gives a finite
    float of at least its order of magnitude, or an infinity: never zero. *)
Lemma binary_round_aux_magnitude (s : bool) (p : positive) (e : Z)
    (l : location) :
  emin prec emax < Zpos (digits2_pos p) + e ->
  (exists m' e',
      binary_round_aux prec emax s (Zpos p) e l = S754_finite s m' e'
      /\ Zpos (digits2_pos p) + e <= Zpos (digits2_pos m') + e')
  \/ binary_round_aux prec emax s (Zpos p) e l = S754_infinity s.
Proof.
  intros Hmag. unfold binary_round_aux.
  destruct (shr_fexp_magnitude p e l Hmag) as (q1 & Hq1 & Hmag1).
  destruct (shr_fexp prec emax (Zpos p) e l) as [r1 e1]; cbn [fst snd] in *.
  pose proof (round_nearest_even_ge (shr_m r1) (loc_of_shr_record r1)) as Hge.
  destruct (round_nearest_even (shr_m r1) (loc_of_shr_record r1)) as [|q2|q2];
    try lia.
  assert (Hmono : Zpos (digits2_pos q1) <= Zpos (digits2_pos q2))
    by (apply digits2_pos_mono; lia).
  assert (Hmag2 : emin prec emax < Zpos (digits2_pos q2) + e1) by lia.
  destruct (shr_fexp_magnitude q2 e1 loc_Exact Hmag2) as (q3 & Hq3 & Hmag3).
  destruct (shr_fexp prec emax (Zpos q2) e1 loc_Exact) as [r3 e3];
    cbn [fst snd] in *.
  rewrite Hq3. destruct (e3 <=? emax - prec).
  - left. exists q3, e3. split; [reflexivity | lia].
  - right. reflexivity.
Qed.

(** A non-zero integer in range converts to a float of magnitude at least
    one. *)
Lemma lit_magnitude (z : Z) :
  z <> 0 -> Z.abs z < float_limit ->
  exists s m e, lit z = S754_finite s m e /\ 1 <= Zpos (digits2_pos m) + e.
Proof.
  intros Hz Hrange.
  assert (Hgen : forall s p, Zpos p < float_limit ->
            exists m e, binary_round prec emax s p 0 = S754_finite s m e
                        /\ 1 <= Zpos (digits2_pos m) + e).
  { intros s p Hp.
    destruct (proj1 (binary_round_integer_overflow s p) Hp) as (m & e & Hfin).
    exists m, e. split; [exact Hfin|].
    revert Hfin. unfold binary_round, shl_align.
    assert (Hd : 1 <= Zpos (digits2_pos p)) by lia.
    destruct (fexp prec emax (Zpos (digits2_pos p) + 0) - 0) as [|n|n] eqn:En.
    - assert (Hmag : emin prec emax < Zpos (digits2_pos p) + 0)
        by (unfold emin, prec, emax; lia).
      destruct (binary_round_aux_magnitude s p 0 loc_Exact Hmag)
        as [(m' & e' & Hr & Hm)|Hr]; rewrite Hr;
        [intros [= <- <-]; lia | discriminate].
    - assert (Hmag : emin prec emax < Zpos (digits2_pos p) + 0)
        by (unfold emin, prec, emax; lia).
      destruct (binary_round_aux_magnitude s p 0 loc_Exact Hmag)
        as [(m' & e' & Hr & Hm)|Hr]; rewrite Hr;
        [intros [= <- <-]; lia | discriminate].
    - assert (Hmag : emin prec emax
                     < Zpos (digits2_pos (Pos.iter xO p n))
                       + fexp prec emax (Zpos (digits2_pos p) + 0))
        by (rewrite digits2_pos_shift; unfold fexp, emin, prec, emax in *; lia).
      destruct (binary_round_aux_magnitude s (Pos.iter xO p n)
                  (fexp prec emax (Zpos (digits2_pos p) + 0)) loc_Exact Hmag)
        as [(m' & e' & Hr & Hm)|Hr]; rewrite Hr; [|discriminate].
      intros [= <- <-]. rewrite digits2_pos_shift in Hm.
      unfold fexp, emin, prec, emax in *. lia. }
  unfold lit, binary_normalize. destruct z as [|p|p]; [contradiction| |].
  - destruct (Hgen false p Hrange) as (m & e & ? & ?). eauto.
  - destruct (Hgen true p Hrange) as (m & e & ? & ?). eauto.
Qed.

(** The product of a float of magnitude at least one with a valid non-zero
    float is not zero. *)
Lemma mul_no_underflow (sx sy : bool) (mx my : positive) (ex ey : Z) :
  1 <= Zpos (digits2_pos mx) + ex ->
  valid_binary prec emax (S754_finite sy my ey) = true ->
  eqb (mul (S754_finite sx mx ex) (S754_finite sy my ey)) zero = false.
Proof.
  intros Hx Hy. unfold mul, SFmul.
  assert (Hey : emin prec emax <= ey).
  { cbn [valid_binary] in Hy. unfold bounded, canonical_mantissa in Hy.
    apply andb_true_iff in Hy. destruct Hy as [Hc _].
    apply Z.eqb_eq in Hc. unfold fexp in Hc. lia. }
  assert (Hprod : Zpos (digits2_pos mx) + Zpos (digits2_pos my) - 1
                  <= Zpos (digits2_pos (mx * my))).
  { pose proof (digits2_pos_lower mx) as Hlx.
    pose proof (digits2_pos_lower my) as Hly.
    pose proof (digits2_pos_gt (mx * my)) as Hgt.
    destruct (Z_le_gt_dec (Zpos (digits2_pos mx) + Zpos (digits2_pos my) - 1)
                (Zpos (digits2_pos (mx * my)))) as [?|Hlt]; [assumption|].
    exfalso.
    assert (Hpow : 2 ^ Zpos (digits2_pos (mx * my))
                   <= 2 ^ (Zpos (digits2_pos mx) - 1
                           + (Zpos (digits2_pos my) - 1)))
      by (apply Z.pow_le_mono_r; lia).
    rewrite Z.pow_add_r in Hpow by lia.
    rewrite Pos2Z.inj_mul in Hgt.
    assert (2 ^ (Zpos (digits2_pos mx) - 1) * 2 ^ (Zpos (digits2_pos my) - 1)
            <= Zpos mx * Zpos my) by (apply Z.mul_le_mono_nonneg; lia).
    lia. }
  assert (Hmag : emin prec emax < Zpos (digits2_pos (mx * my)) + (ex + ey))
    by (unfold emin, prec, emax in *; lia).
  destruct (binary_round_aux_magnitude (xorb sx sy) (mx * my) (ex + ey)
              loc_Exact Hmag)
    as [(m & e & Hr & _)|Hr]; rewrite Hr; destruct (xorb sx sy); reflexivity.
Qed.

(** ** [calculate_lot_size]: every outcome *)

Lemma of_int_inv (z : Z) (f : float) : of_int z = Ok f -> f = lit z.
Proof.
  unfold of_int. destruct (lit z); intros Hok; try discriminate;
    injection Hok as <-; reflexivity.
Qed.

Lemma eqb_zero_finite (s : bool) (m : positive) (e : Z) :
  eqb (S754_finite s m e) zero = false.
Proof. destruct s; reflexivity. Qed.

(** When the product [stop_loss_pips * pip_value] is zero. *)
Lemma pips_value_zero_iff (z : Z) (pip : float) :
  Z.abs z < float_limit -> valid_binary prec emax pip = true ->
  eqb (mul (lit z) pip) zero = true
  <-> eqb pip zero = true \/ (z = 0 /\ is_finite pip = true).
Proof.
  intros Hrange Hvalid. destruct (Z.eq_dec z 0) as [->|Hz].
  - change (lit 0) with (S754_zero false).
    destruct pip as [s|s| |s m e]; cbn.
    + split; auto.
    + split; [discriminate|]. intros [Hc|[_ Hc]]; revert Hc; destruct s;
        discriminate.
    + split; [discriminate|]. intros [Hc|[_ Hc]]; discriminate.
    + split; [auto|]. intros _. destruct s; reflexivity.
  - destruct (lit_magnitude z Hz Hrange) as (s & m & e & -> & Hmag).
    destruct pip as [sp|sp| |sp mp ep].
    + split; [left; destruct sp; reflexivity|].
      intros _. cbn. destruct (xorb s sp); reflexivity.
    + split.
      * cbn. destruct (xorb s sp); discriminate.
      * intros [Hc|[Hc _]]; [destruct sp; discriminate | contradiction].
    + split; [discriminate|]. intros [Hc|[Hc _]]; [discriminate|contradiction].
    + rewrite (mul_no_underflow s sp m mp e ep Hmag Hvalid).
      split; [discriminate|].
      intros [Hc|[Hc _]]; [|contradiction].
      rewrite eqb_zero_finite in Hc. discriminate.
Qed.

(** X7.  Every outcome of [calculate_lot_size], for a pip value that is a
    binary64 number: it raises [OverflowError] exactly when the integer
    [stop_loss_pips] is out of the range of floats (from [2^1024 - 2^970]
    on); otherwise it raises [ZeroDivisionError] exactly when the pip value
    is zero, or the stop-loss distance is zero and the pip value finite; in
    every other case it returns the rounded quotient.  It never touches the
    object. *)
Theorem calculate_lot_size_outcomes (w : World) :
  valid_binary prec emax (pip_value (self w)) = true ->
  let z := stop_loss_pips (self w) in
  let pip := pip_value (self w) in
  let zero_product := eqb pip zero = true \/ (z = 0 /\ is_finite pip = true) in
  (float_limit <= Z.abs z <->
   fst (calculate_lot_size w) = Raise overflow_error)
  /\ (Z.abs z < float_limit /\ zero_product <->
      fst (calculate_lot_size w) = Raise zero_division_error)
  /\ (Z.abs z < float_limit -> ~ zero_product ->
      fst (calculate_lot_size w)
      = Ok (round
              (div (mul (account_balance (self w))
                        (div (risk_percent (self w)) (lit 100)))
                   (mul (lit z) pip))
              2))
  /\ snd (calculate_lot_size w) = w.
Proof.
  intros Hvalid z pip zero_product.
  assert (Hrun : calculate_lot_size w
            = (rbind (int_mul z pip) (fun d =>
                 rbind (truediv
                          (mul (account_balance (self w))
                               (div (risk_percent (self w)) (lit 100))) d)
                   (fun lot_size => Ok (round lot_size 2))), w)).
  { unfold calculate_lot_size, bind, get_self, lift, ret.
    rewrite truediv_hundred.
    destruct (int_mul (stop_loss_pips (self w)) (pip_value (self w)))
      as [d|e] eqn:Hd; fold z pip in Hd; rewrite Hd; cbn [rbind];
      [|reflexivity].
    destruct (truediv _ d); reflexivity. }
  rewrite Hrun. cbn [fst snd]. unfold int_mul.
  destruct (Z_lt_le_dec (Z.abs z) float_limit) as [Hin|Hout].
  - rewrite (of_int_ok z Hin). cbn [rbind]. unfold truediv.
    pose proof (pips_value_zero_iff z pip Hin Hvalid) as Hzero.
    fold zero_product in Hzero.
    destruct (eqb (mul (lit z) pip) zero) eqn:Hprod; cbn [rbind].
    + assert (Hz : zero_product) by (apply Hzero; reflexivity).
      repeat split; try discriminate; try lia; auto.
      intros _ Hnot. contradiction.
    + assert (Hz : ~ zero_product)
        by (intros Hc; apply Hzero in Hc; discriminate).
      repeat split; try discriminate; try lia; auto.
      intros [_ Hc]. contradiction.
  - rewrite (proj2 (of_int_spec z) Hout). cbn [rbind].
    repeat split; try discriminate; try lia; auto.
Qed.

(** ** [generate_signal]: the shape of a signal *)

(** What [generate_signal] does with any object. *)
Lemma generate_signal_cases (w : World) :
  (generate_signal w = (Raise not_ready, w)
   /\ (data (self w) = None \/ data (self w) = Some []))
  \/ exists rows r,
       data (self w) = Some (rows ++ [r])%list
       /\ generate_signal w = (branch (self w) r, w).
Proof.
  destruct (data (self w)) as [df|] eqn:Hdata.
  - destruct (empty df) eqn:Hempty.
    + destruct df; [|discriminate]. left. split; [|auto].
      unfold generate_signal, bind, get_self, raise. rewrite Hdata.
      reflexivity.
    + destruct (nonempty_snoc df Hempty) as (rows & r & ->).
      right. exists rows, r. split; [reflexivity|].
      apply (generate_signal_loaded w rows r Hdata).
  - left. split; [|auto].
    unfold generate_signal, bind, get_self, raise. rewrite Hdata. reflexivity.
Qed.

(** X8.  In every signal [generate_signal] returns, the take profit and the
    stop loss are both absent when the action is Hold, and otherwise both
    present, at the same distance [stop_loss_pips * pip_value] on either side
    of the entry price: above and below for Buy, below and above for Sell. *)
Theorem signal_levels (w : World) (s : Signal) :
  fst (generate_signal w) = Ok s ->
  let distance := mul (lit (stop_loss_pips (self w))) (pip_value (self w)) in
  match action s with
  | Hold => take_profit s = None /\ stop_loss s = None
  | Buy =>
      take_profit s = Some (add (entry_price s) distance)
      /\ stop_loss s = Some (sub (entry_price s) distance)
  | Sell =>
      take_profit s = Some (sub (entry_price s) distance)
      /\ stop_loss s = Some (add (entry_price s) distance)
  end.
Proof.
  intros Hs distance.
  destruct (generate_signal_cases w) as [[Hrun _]|(rows & r & _ & Hrun)];
    rewrite Hrun in Hs; cbn [fst] in Hs; [discriminate|].
  unfold branch, int_mul in Hs.
  destruct (getitem "RSI" (RSI r)) as [x|]; [|discriminate].
  destruct (getitem "SMA" (SMA r)) as [y|]; [|discriminate].
  cbn [rbind] in Hs.
  destruct (of_int (stop_loss_pips (self w))) as [f|e] eqn:Hconv.
  - apply of_int_inv in Hconv. subst f. fold distance in Hs.
    destruct (ltb x (lit 30) && ltb y (Close (bar r)));
      [|destruct (ltb (lit 70) x && ltb (Close (bar r)) y)];
      cbn [rbind] in Hs; injection Hs as <-; cbn; split; reflexivity.
  - destruct (ltb x (lit 30) && ltb y (Close (bar r)));
      [|destruct (ltb (lit 70) x && ltb (Close (bar r)) y)];
      cbn [rbind] in Hs; try discriminate.
    injection Hs as <-. cbn. split; reflexivity.
Qed.

(** On a row that has the RSI and SMA columns, with a stop-loss distance in
    the range of floats, a signal is returned, at the Close of the row. *)
Lemma branch_returns (me : TradingModel) (r : Row) (x y : float) :
  RSI r = Some x -> SMA r = Some y ->
  Z.abs (stop_loss_pips me) < float_limit ->
  exists s, branch me r = Ok s /\ entry_price s = Close (bar r).
Proof.
  intros Hx Hy Hrange. unfold branch, int_mul.
  rewrite Hx, Hy, (of_int_ok _ Hrange). cbn [getitem rbind].
  destruct (ltb x (lit 30) && ltb y (Close (bar r)));
    [|destruct (ltb (lit 70) x && ltb (Close (bar r)) y)];
    eexists; split; reflexivity.
Qed.

Section FetchThenSignal.

Context `{Libraries}.

(** The rows a successful fetch retains have every value. *)
Lemma retained_rows_complete (w w' : World) (interval period : string) :
  fetch_data interval period w = (Ok tt, w') ->
  exists kept,
    data (self w') = Some kept
    /\ params (self w') = params (self w)
    /\ Forall (fun r => has_indicators r /\ has_na r = false) kept.
Proof.
  intros Hfetch.
  destruct (fetch_data_ok_inv w w' interval period Hfetch)
    as (bars & _ & _ & ->).
  exists (dropna (enriched bars)). cbn [self data with_data].
  split; [reflexivity|]. split; [reflexivity|].
  apply Forall_forall. intros r Hin. unfold dropna in Hin.
  apply filter_In in Hin. destruct Hin as [Hin Hna].
  apply negb_true_iff in Hna. split; [|exact Hna].
  pose proof (enriched_has_indicators bars) as Hall.
  rewrite Forall_forall in Hall. apply Hall. exact Hin.
Qed.

(** X9.  After a successful [fetch_data], with a stop-loss distance in the
    range of floats, [generate_signal] fails only when no row was retained,
    and then with the not-ready error; when a row was retained it returns a
    signal whose entry price is the Close of the last retained row, which is
    not a missing value. *)
Theorem signal_after_fetch (w w' : World) (interval period : string) :
  fetch_data interval period w = (Ok tt, w') ->
  Z.abs (stop_loss_pips (self w)) < float_limit ->
  (forall e, fst (generate_signal w') = Raise e ->
             e = not_ready /\ data (self w') = Some [])
  /\ (forall rows r, data (self w') = Some (rows ++ [r])%list ->
        exists s, fst (generate_signal w') = Ok s
                  /\ entry_price s = Close (bar r)
                  /\ isnan (entry_price s) = false).
Proof.
  intros Hfetch Hrange.
  destruct (retained_rows_complete w w' interval period Hfetch)
    as (kept & Hdata & Hparams & Hkept).
  assert (Hrange' : Z.abs (stop_loss_pips (self w')) < float_limit).
  { unfold params in Hparams. injection Hparams as _ _ _ -> _. exact Hrange. }
  assert (Hlast : forall rows r, kept = (rows ++ [r])%list ->
            exists s, fst (generate_signal w') = Ok s
                      /\ entry_price s = Close (bar r)
                      /\ isnan (entry_price s) = false).
  { intros rows r ->.
    rewrite (generate_signal_loaded w' rows r Hdata). cbn [fst].
    rewrite Forall_forall in Hkept.
    destruct (Hkept r) as [Hind Hna];
      [apply in_or_app; right; left; reflexivity|].
    destruct (complete_row r Hind Hna)
      as (Hclose & (x & Hx & _) & _ & (z & Hz & _)).
    destruct (branch_returns (self w') r z x Hz Hx Hrange')
      as (s & Hs & Hentry).
    exists s. rewrite Hentry. auto. }
  split.
  - intros e Hraise.
    destruct kept as [|r0 kept'].
    + split; [|exact Hdata].
      destruct (generate_signal_cases w') as [[Hrun _]|(rows & r & Hd & _)].
      * rewrite Hrun in Hraise. injection Hraise as <-. reflexivity.
      * rewrite Hdata in Hd. injection Hd as Hd. destruct rows; discriminate.
    + destruct (exists_last (l := r0 :: kept')) as (rows & r & Heq);
        [discriminate|].
      destruct (Hlast rows r Heq) as (s & Hs & _). congruence.
  - intros rows r Hd. rewrite Hdata in Hd. injection Hd as Hd.
    apply (Hlast rows r Hd).
Qed.

End FetchThenSignal.

(** ** The application *)

Lemma chart_points_complete (df : DataFrame) :
  Forall has_indicators df -> chart_points df = Ok (map chart_point_of df).
Proof.
  induction 1 as [|r df ((s & Hs) & (e & He) & _) _ IH]; [reflexivity|].
  cbn [chart_points map]. rewrite Hs, He, IH. cbn [rbind].
  unfold chart_point_of. rewrite Hs, He. reflexivity.
Qed.

(** Within the bounds of the widgets and the range of floats the lot size
    is computed, whatever the object holds. *)
Lemma calculate_lot_size_returns (w : World) :
  10 <= stop_loss_pips (self w) < float_limit ->
  leb (dec 1 2) (pip_value (self w)) = true ->
  exists lot_size, calculate_lot_size w = (Ok lot_size, w).
Proof.
  intros [Hpips Hrange] Hpip.
  assert (Hconv : of_int (stop_loss_pips (self w))
                  = Ok (lit (stop_loss_pips (self w))))
    by (apply of_int_ok; lia).
  unfold calculate_lot_size, bind, get_self, lift, ret.
  rewrite truediv_hundred. unfold int_mul. rewrite Hconv. cbn [rbind].
  unfold truediv at 1.
  rewrite (lot_divisor_nonzero _ _ _ Hpips Hconv Hpip). eauto.
Qed.

Section Application.

Context `{Libraries}.

Ltac unfold_main Hc :=
  unfold main, ui_bind, st, ui_ret, call, except_ValueError;
  rewrite Hc; rewrite <- !app_assoc; cbn [app].

Lemma main_not_clicked (ui : Sidebar) (page : list UIEvent) :
  clicked ui = false -> main ui page = (Ok tt, (page ++ sidebar_page)%list).
Proof.
  intros Hc. unfold main, ui_bind, st, ui_ret. rewrite Hc.
  rewrite <- !app_assoc. reflexivity.
Qed.

Lemma main_fetch_fails (ui : Sidebar) (page : list UIEvent) (e : exn)
    (w' : World) :
  clicked ui = true ->
  fetch_data (selected_interval ui) default_period (new_world (model_of ui))
  = (Raise e, w') ->
  main ui page = handled e (page ++ sidebar_page ++ [fetching_line ui])%list.
Proof.
  intros Hc Hfetch. unfold_main Hc. fold (model_of ui).
  rewrite Hfetch. reflexivity.
Qed.

Lemma main_signal_fails (ui : Sidebar) (page : list UIEvent) (e : exn)
    (w1 w2 : World) :
  clicked ui = true ->
  fetch_data (selected_interval ui) default_period (new_world (model_of ui))
  = (Ok tt, w1) ->
  generate_signal w1 = (Raise e, w2) ->
  main ui page = handled e (page ++ sidebar_page ++ [fetching_line ui])%list.
Proof.
  intros Hc Hfetch Hsignal. unfold_main Hc. fold (model_of ui).
  rewrite Hfetch. cbn [snd]. rewrite Hsignal. reflexivity.
Qed.

Lemma main_completes (ui : Sidebar) (page : list UIEvent) (w1 w2 w3 : World)
    (s : Signal) (lot_size : float) (points : list ChartPoint) :
  clicked ui = true ->
  fetch_data (selected_interval ui) default_period (new_world (model_of ui))
  = (Ok tt, w1) ->
  generate_signal w1 = (Ok s, w2) ->
  calculate_lot_size w2 = (Ok lot_size, w3) ->
  chart_columns w3 = Ok points ->
  main ui page
  = (Ok tt,
     (page ++ sidebar_page ++ [fetching_line ui] ++ signal_lines s
        ++ [lot_line lot_size; LineChart points])%list).
Proof.
  intros Hc Hfetch Hsignal Hlot Hchart. unfold_main Hc. fold (model_of ui).
  rewrite Hfetch. cbn [snd]. rewrite Hsignal. cbn [fst snd].
  unfold signal_lines.
  destruct (action s); cbn [action_name String.eqb Ascii.eqb Bool.eqb negb];
    rewrite Hlot; cbn [fst snd]; rewrite Hchart; rewrite <- ?app_assoc;
    reflexivity.
Qed.


(** A failed fetch, or one that retained no row, ends the run with the
    message of the error after the fetching line. *)
Lemma main_error_page (ui : Sidebar) (page : list UIEvent) :
  clicked ui = true ->
  let fetched :=
    fetch_data (selected_interval ui) default_period
      (new_world (model_of ui)) in
  (forall e, fst fetched = Raise e ->
     main ui page
     = (Ok tt,
        (page ++ sidebar_page ++ [fetching_line ui; Error (str e)])%list))
  /\ (fst fetched = Ok tt -> data (self (snd fetched)) = Some [] ->
      main ui page
      = (Ok tt,
         (page ++ sidebar_page
            ++ [fetching_line ui; Error (str not_ready)])%list)).
Proof.
  intros Hc fetched. split.
  - intros e He. destruct fetched as [r w'] eqn:Hfetch. cbn [fst] in He.
    subst r.
    rewrite (main_fetch_fails ui page e w' Hc Hfetch).
    destruct (fetch_data_raise_inv _ _ _ _ _ Hfetch)
      as [(cause & _ & -> & _)|[(_ & -> & _)|(b & _ & -> & _)]];
      unfold handled; cbn [exn_cls fetch_error]; rewrite <- !app_assoc;
      reflexivity.
  - intros Hok Hdata. destruct fetched as [r w1] eqn:Hfetch.
    cbn [fst snd] in Hok, Hdata. subst r.
    assert (Hsignal : generate_signal w1 = (Raise not_ready, w1))
      by (unfold generate_signal, bind, get_self, raise; rewrite Hdata;
          reflexivity).
    rewrite (main_signal_fails ui page not_ready w1 w1 Hc Hfetch Hsignal).
    unfold handled. cbn [exn_cls not_ready]. rewrite <- !app_assoc.
    reflexivity.
Qed.

(** What a run does after a successful fetch that retained a row, with
    values within the bounds of the widgets. *)
Lemma main_after_fetch (ui : Sidebar) (page : list UIEvent) (w1 : World)
    (rows : DataFrame) (r : Row) :
  clicked ui = true ->
  10 <= entered_pips ui < float_limit ->
  leb (dec 1 2) (entered_pip ui) = true ->
  fetch_data (selected_interval ui) default_period (new_world (model_of ui))
  = (Ok tt, w1) ->
  data (self w1) = Some (rows ++ [r])%list ->
  exists s lot_size,
    generate_signal w1 = (Ok s, w1)
    /\ entry_price s = Close (bar r)
    /\ calculate_lot_size (new_world (model_of ui))
       = (Ok lot_size, new_world (model_of ui))
    /\ main ui page
       = (Ok tt,
          (page ++ sidebar_page ++ [fetching_line ui] ++ signal_lines s
             ++ [lot_line lot_size;
                 LineChart (map chart_point_of (rows ++ [r]))])%list).
Proof.
  intros Hc Hpips Hpip Hfetch Hdata.
  destruct (retained_rows_complete _ _ _ _ Hfetch)
    as (kept & Hkept & Hparams & Hall).
  rewrite Hdata in Hkept. injection Hkept as <-.
  pose proof Hparams as Hsame_params.
  unfold params in Hparams. cbn in Hparams.
  injection Hparams as _ Hbal Hrisk Hz Hp.
  assert (Hrange : Z.abs (stop_loss_pips (self w1)) < float_limit)
    by (rewrite Hz; lia).
  rewrite Forall_forall in Hall.
  destruct (Hall r) as [Hind Hna];
    [apply in_or_app; right; left; reflexivity|].
  destruct Hind as ((x & Hx) & _ & (z & Hzr)).
  destruct (branch_returns (self w1) r z x Hzr Hx Hrange)
    as (s & Hs & Hentry).
  assert (Hsignal : generate_signal w1 = (Ok s, w1))
    by (rewrite (generate_signal_loaded w1 rows r Hdata), Hs; reflexivity).
  destruct (calculate_lot_size_returns w1) as (lot_size & Hlot);
    [rewrite Hz; exact Hpips | rewrite Hp; exact Hpip |].
  assert (Hchart : chart_columns w1 = Ok (map chart_point_of (rows ++ [r]))).
  { unfold chart_columns. rewrite Hdata. apply chart_points_complete.
    apply Forall_forall. intros r' Hin. apply (Hall r' Hin). }
  exists s, lot_size. split; [exact Hsignal|]. split; [exact Hentry|].
  split.
  - pose proof (calculate_lot_size_params w1 (new_world (model_of ui)))
      as Hsame.
    destruct (calculate_lot_size_returns (new_world (model_of ui)))
      as (lot' & Hlot'); [exact Hpips | exact Hpip |].
    rewrite Hlot'. f_equal. f_equal.
    specialize (Hsame (eq_sym Hsame_params)).
    rewrite Hlot, Hlot' in Hsame. cbn in Hsame.
    congruence.
  - apply (main_completes ui page w1 w1 w1 s lot_size _ Hc Hfetch Hsignal Hlot
             Hchart).
Qed.

(** X10.  An error is displayed alone.  When the fetch fails, or succeeds
    but retains no row, a clicked run displays the fetching line and then
    the message of the error, and nothing of a signal, a lot size or a
    chart; it ends normally. *)
Theorem main_error_alone (ui : Sidebar) (page : list UIEvent) :
  clicked ui = true ->
  let fetched :=
    fetch_data (selected_interval ui) default_period
      (new_world (model_of ui)) in
  (forall e, fst fetched = Raise e ->
     main ui page
     = (Ok tt,
        (page ++ sidebar_page ++ [fetching_line ui; Error (str e)])%list))
  /\ (fst fetched = Ok tt -> data (self (snd fetched)) = Some [] ->
      main ui page
      = (Ok tt,
         (page ++ sidebar_page
            ++ [fetching_line ui; Error (str not_ready)])%list)).
Proof. apply main_error_page. Qed.

(** X11.  A full result.  With values within the bounds of the widgets and
    a stop-loss distance in the range of floats, a clicked run whose fetch
    retained at least one row displays, in this order: the fetching line, the
    action and the entry price (the Close of the last retained row), the
    take profit and the stop loss unless the action is Hold, the lot size
    [calculate_lot_size] gives for the entered values, and the chart of
    Close, SMA and EMA over all retained rows. *)
Theorem main_full_result (ui : Sidebar) (page : list UIEvent) (w1 : World)
    (rows : DataFrame) (r : Row) :
  delivered ui -> clicked ui = true ->
  entered_pips ui < float_limit ->
  fetch_data (selected_interval ui) default_period (new_world (model_of ui))
  = (Ok tt, w1) ->
  data (self w1) = Some (rows ++ [r])%list ->
  exists s lot_size,
    fst (generate_signal w1) = Ok s
    /\ entry_price s = Close (bar r)
    /\ fst (calculate_lot_size (new_world (model_of ui))) = Ok lot_size
    /\ main ui page
       = (Ok tt,
          (page ++ sidebar_page ++ [fetching_line ui] ++ signal_lines s
             ++ [lot_line lot_size;
                 LineChart (map chart_point_of (rows ++ [r]))])%list).
Proof.
  intros (_ & _ & _ & _ & Hpips & Hpip & _) Hc Hrange Hfetch Hdata.
  destruct (main_after_fetch ui page w1 rows r Hc (conj Hpips Hrange) Hpip
              Hfetch Hdata) as (s & lot_size & Hs & Hentry & Hlot & Hmain).
  exists s, lot_size. rewrite Hs, Hlot. auto.
Qed.

(** X12.  No exception escapes a run on values within the bounds of the
    widgets (and a stop-loss distance in the range of floats), whatever the
    provider answers or raises; and a run without a click draws the sidebar
    and calls nothing. *)
Theorem main_ends_normally (ui : Sidebar) (page : list UIEvent) :
  delivered ui -> entered_pips ui < float_limit ->
  fst (main ui page) = Ok tt
  /\ (clicked ui = false -> snd (main ui page) = (page ++ sidebar_page)%list).
Proof.
  intros Hdel Hrange. split.
  - destruct (clicked ui) eqn:Hc;
      [|rewrite (main_not_clicked ui page Hc); reflexivity].
    pose proof (main_error_page ui page Hc) as [Hfail Hnone].
    destruct (fetch_data (selected_interval ui) default_period
                (new_world (model_of ui))) as [[[]|e] w1] eqn:Hfetch;
      cbn [fst snd] in *.
    + destruct (retained_rows_complete _ _ _ _ Hfetch) as (kept & Hkept & _).
      destruct kept as [|r0 kept'].
      * rewrite (Hnone eq_refl Hkept). reflexivity.
      * destruct (exists_last (l := r0 :: kept')) as (rows & r & Heq);
          [discriminate|].
        rewrite Heq in Hkept.
        destruct Hdel as (_ & _ & _ & _ & Hpips & Hpip & _).
        destruct (main_after_fetch ui page w1 rows r Hc (conj Hpips Hrange)
                    Hpip Hfetch Hkept) as (s & lot & _ & _ & _ & ->).
        reflexivity.
    + rewrite (Hfail e eq_refl). reflexivity.
  - intros Hc. rewrite (main_not_clicked ui page Hc). reflexivity.
Qed.

End Application.

(** ** The object through any sequence of calls *)

Lemma calculate_lot_size_world (w : World) : snd (calculate_lot_size w) = w.
Proof.
  unfold calculate_lot_size, bind, get_self, lift, ret.
  rewrite truediv_hundred.
  destruct (int_mul (stop_loss_pips (self w)) (pip_value (self w)))
    as [d|e]; [|reflexivity].
  destruct (truediv _ d); reflexivity.
Qed.

Lemma generate_signal_world (w : World) : snd (generate_signal w) = w.
Proof.
  destruct (generate_signal_cases w) as [[-> _]|(rows & r & _ & ->)];
    reflexivity.
Qed.

Section Reachable.

Context `{Libraries}.

(** X14.  Every pair the sidebar offers has its entry in the ticker table:
    the application never passes a pair to the provider unmapped. *)
Theorem offered_pairs_are_mapped (ui : Sidebar) :
  delivered ui ->
  In (selected_pair ui, ticker_of (model_of ui)) ticker_map
  /\ ticker_of (model_of ui) <> selected_pair ui.
Proof.
  intros (Hpair & _). unfold ticker_of, model_of. cbn [currency_pair __init__].
  unfold pair_options in Hpair. cbn [In] in Hpair.
  destruct Hpair as [<-|[<-|[<-|[<-|[]]]]]; cbn; split;
    intuition discriminate.
Qed.

Lemma fetch_data_invariant (w : World) (interval period : string) :
  table_invariant w -> table_invariant (snd (fetch_data interval period w)).
Proof.
  intros Hinv.
  destruct (fetch_data interval period w) as [[[]|e] w'] eqn:Hfetch;
    cbn [snd].
  - destruct (retained_rows_complete _ _ _ _ Hfetch) as (kept & Hk & _ & Hall).
    right. right. exists kept. split; assumption.
  - destruct (fetch_data_raise_inv _ _ _ _ _ Hfetch)
      as [(cause & _ & _ & Hself)|[(_ & _ & Hself)|(b & _ & _ & Hself)]].
    + unfold table_invariant. rewrite Hself. exact Hinv.
    + right. left. exists []. unfold table_invariant. rewrite Hself.
      split; [cbn; lia | reflexivity].
    + right. left. exists [b]. rewrite Hself. split; [cbn; lia | reflexivity].
Qed.

(** The parameters and the shape of the table are kept by every call. *)
Lemma reachable_invariant_helper (m0 : TradingModel) (w : World) :
  reachable m0 w ->
  params (self w) = params m0 /\ table_invariant w.
Proof.
  induction 1 as [Hnew|w interval period _ [IHp IHt]|w _ IH|w _ IH].
  - split; [reflexivity|]. left. exact Hnew.
  - split.
    + rewrite (preserves_fetch_data interval period w). exact IHp.
    + apply fetch_data_invariant. exact IHt.
  - rewrite generate_signal_world. exact IH.
  - rewrite calculate_lot_size_world. exact IH.
Qed.

(** X15.  Through any sequence of calls of the three methods, whatever
    their outcomes, the five parameters stay as constructed, and the table
    the object holds is always one of: none; the provider's table of at most
    one bar, without indicator columns (after a fetch that failed on it); or
    a table whose rows all have SMA, EMA and RSI and no missing value. *)
Theorem reachable_invariant (m0 : TradingModel) (w : World) :
  reachable m0 w ->
  params (self w) = params m0 /\ table_invariant w.
Proof. apply reachable_invariant_helper. Qed.

(** X16.  On an object in any reachable state, with a stop-loss distance in
    the range of floats, [generate_signal] returns a signal whose entry price
    is not a missing value, or raises the not-ready error, or (only when the
    object holds the one bar of a fetch that failed in the indicators) the
    [KeyError] of the missing RSI column, raised by pandas from the index
    lookup's own; nothing else. *)
Theorem reachable_signal (m0 : TradingModel) (w : World) :
  reachable m0 w ->
  Z.abs (stop_loss_pips m0) < float_limit ->
  (exists s, fst (generate_signal w) = Ok s /\ isnan (entry_price s) = false)
  \/ fst (generate_signal w) = Raise not_ready
  \/ (fst (generate_signal w) = Raise (key_error "RSI")
      /\ exists b, data (self w) = Some [raw_row b]).
Proof.
  intros Hreach Hrange.
  destruct (reachable_invariant_helper m0 w Hreach) as [Hparams Hinv].
  assert (Hrange' : Z.abs (stop_loss_pips (self w)) < float_limit).
  { unfold params in Hparams. injection Hparams as _ _ _ -> _. exact Hrange. }
  destruct (generate_signal_cases w) as [[-> _]|(rows & r & Hdata & ->)];
    cbn [fst]; [right; left; reflexivity|].
  destruct Hinv as [Hnone|[(bars & Hlen & Hraw)|(kept & Hkept & Hall)]].
  - congruence.
  - rewrite Hdata in Hraw. injection Hraw as Hraw.
    destruct bars as [|b [|b' bars]]; cbn in Hlen; try lia.
    + destruct rows; discriminate.
    + cbn in Hraw. destruct rows as [|r0 rows].
      * injection Hraw as ->. right. right. split; [reflexivity|].
        exists b. rewrite Hdata. reflexivity.
      * destruct rows; discriminate.
  - rewrite Hdata in Hkept. injection Hkept as <-.
    rewrite Forall_forall in Hall.
    destruct (Hall r) as [Hind Hna];
      [apply in_or_app; right; left; reflexivity|].
    destruct (complete_row r Hind Hna)
      as (Hclose & (x & Hx & _) & _ & (z & Hz & _)).
    destruct (branch_returns (self w) r z x Hz Hx Hrange') as (s & -> & Hentry).
    left. exists s. rewrite Hentry. auto.
Qed.

End Reachable.

(** ** Concrete runs for the further properties *)

Lemma default_sidebar_delivered : delivered default_sidebar.
Proof.
  unfold delivered. repeat split; try (vm_compute; reflexivity).
  - left. reflexivity.
  - vm_compute. discriminate.
  - left. reflexivity.
Qed.

(** A listed pair goes to its ticker, an unlisted one goes as it is. *)
Lemma fetch_data_asks_ticker_witness :
  ticker_of sample_model = "EURUSD=X"
  /\ ticker_of unlisted_model = "AUDUSD=X".
Proof.
  split.
  - apply (proj1 (proj2 (@fetch_data_asks_ticker sample_libraries
                           (new_world sample_model) "1d" "1mo"))).
    right. left. reflexivity.
  - apply (proj2 (proj2 (@fetch_data_asks_ticker sample_libraries
                           (new_world unlisted_model) "1d" "1mo"))).
    cbn. intuition discriminate.
Defined.

(** The provider is down: the caller gets the wrapped [ValueError]. *)
Lemma fetch_data_raises_ValueError_witness :
  exn_cls (fetch_error (Exn OtherError "connection refused" None)) = ValueError
  /\ exists cause,
       exn_context (fetch_error (Exn OtherError "connection refused" None))
       = Some cause
       /\ str (fetch_error (Exn OtherError "connection refused" None))
          = "Error fetching data: " ++ str cause.
Proof.
  apply (@fetch_data_raises_ValueError offline_libraries
           (new_world sample_model)
           (snd (@fetch_data offline_libraries "1d" "1mo"
                   (new_world sample_model)))
           "1d" "1mo").
  reflexivity.
Defined.

(** An hour chart fetched into a loaded object while the provider is down:
    the table stays. *)
Lemma failed_download_keeps_table_witness :
  self (snd (@fetch_data offline_libraries "1h" "1mo"
               (loaded_world sample_model [oversold_row])))
  = self (loaded_world sample_model [oversold_row])
  /\ fst (generate_signal
            (snd (@fetch_data offline_libraries "1h" "1mo"
                    (loaded_world sample_model [oversold_row]))))
     = fst (generate_signal (loaded_world sample_model [oversold_row])).
Proof.
  apply (@failed_download_keeps_table offline_libraries
           (loaded_world sample_model [oversold_row]) "1h" "1mo"
           (Exn OtherError "connection refused" None)).
  reflexivity.
Defined.

(** The same object, the provider answering with an empty table: the table
    is gone. *)
Lemma empty_answer_drops_table_witness :
  data (self (snd (@fetch_data empty_libraries "1h" "1mo"
                     (loaded_world sample_model [oversold_row]))))
  = Some []
  /\ generate_signal (snd (@fetch_data empty_libraries "1h" "1mo"
                             (loaded_world sample_model [oversold_row])))
     = (Raise not_ready,
        snd (@fetch_data empty_libraries "1h" "1mo"
               (loaded_world sample_model [oversold_row]))).
Proof.
  apply (@empty_answer_drops_table empty_libraries
           (loaded_world sample_model [oversold_row]) "1h" "1mo").
  reflexivity.
Defined.

Lemma single_bar_fetch_witness :
  fst (generate_signal one_bar_world)
  = Raise (Exn KeyError "'RSI'" (Some (Exn KeyError "'RSI'" None))).
Proof.
  apply (@single_bar_fetch one_bar_libraries (new_world sample_model)
           default_interval default_period (flat_bar 1 (lit 100))).
  reflexivity.
Defined.

(** No stop-loss distance: the division fails. *)
Lemma calculate_lot_size_outcomes_witness :
  fst (calculate_lot_size (new_world no_distance_model))
  = Raise zero_division_error.
Proof.
  apply (proj1 (proj1 (proj2
           (calculate_lot_size_outcomes (new_world no_distance_model)
              eq_refl)))).
  split; [vm_compute; reflexivity|]. right. split; reflexivity.
Defined.

(** The Buy of the oversold row: 500 above and 500 below the entry. *)
Lemma signal_levels_witness :
  fst (generate_signal (loaded_world sample_model [oversold_row]))
  = Ok {| action := Buy;
          entry_price := lit 110;
          take_profit := Some (add (lit 110) (lit 500));
          stop_loss := Some (sub (lit 110) (lit 500)) |}
  /\ Some (add (lit 110) (lit 500))
     = Some (add (lit 110)
               (mul (lit (stop_loss_pips sample_model))
                  (pip_value sample_model)))
  /\ Some (sub (lit 110) (lit 500))
     = Some (sub (lit 110)
               (mul (lit (stop_loss_pips sample_model))
                  (pip_value sample_model))).
Proof.
  assert (Hs : fst (generate_signal (loaded_world sample_model [oversold_row]))
               = Ok {| action := Buy;
                       entry_price := lit 110;
                       take_profit := Some (add (lit 110) (lit 500));
                       stop_loss := Some (sub (lit 110) (lit 500)) |})
    by (vm_compute; reflexivity).
  split; [exact Hs|].
  pose proof (signal_levels (loaded_world sample_model [oversold_row]) _ Hs)
    as [Htake Hstop].
  cbn [take_profit stop_loss entry_price loaded_world self] in Htake, Hstop.
  split; [exact Htake | exact Hstop].
Defined.

Lemma signal_after_fetch_witness :
  exists s,
    fst (generate_signal sample_world) = Ok s
    /\ entry_price s = lit 110
    /\ isnan (entry_price s) = false.
Proof.
  refine (proj2 (@signal_after_fetch sample_libraries
                   (new_world (model_of default_sidebar)) sample_world
                   "1d" default_period _ _)
            (firstn 2 (skipn 14 (@enriched sample_libraries sample_bars)))
            (nth 16 (@enriched sample_libraries sample_bars) quiet_row) _);
    vm_compute; reflexivity.
Defined.

(** Five bars: the run ends on the not-ready message. *)
Lemma main_error_alone_witness :
  @main short_libraries default_sidebar blank_page
  = (Ok tt,
     (sidebar_page
        ++ [fetching_line default_sidebar; Error (str not_ready)])%list).
Proof.
  apply (proj2 (@main_error_alone short_libraries default_sidebar blank_page
                  eq_refl)); vm_compute; reflexivity.
Defined.

(** The sample series: Hold at 110, no levels, 0.02 lots, a chart of the
    three retained rows. *)
Lemma main_full_result_witness :
  exists s lot_size,
    fst (generate_signal sample_world) = Ok s
    /\ entry_price s = lit 110
    /\ fst (calculate_lot_size (new_world (model_of default_sidebar)))
       = Ok lot_size
    /\ @main sample_libraries default_sidebar blank_page
       = (Ok tt,
          (sidebar_page ++ [fetching_line default_sidebar] ++ signal_lines s
             ++ [lot_line lot_size;
                 LineChart
                   (map chart_point_of
                      (skipn 14
                         (@enriched sample_libraries sample_bars)))])%list).
Proof.
  refine (@main_full_result sample_libraries default_sidebar blank_page
            sample_world
            (firstn 2 (skipn 14 (@enriched sample_libraries sample_bars)))
            (nth 16 (@enriched sample_libraries sample_bars) quiet_row)
            default_sidebar_delivered eq_refl _ _ _);
    vm_compute; reflexivity.
Defined.

Lemma main_ends_normally_witness :
  fst (@main offline_libraries default_sidebar blank_page) = Ok tt.
Proof.
  apply (proj1 (@main_ends_normally offline_libraries default_sidebar
                  blank_page default_sidebar_delivered eq_refl)).
Defined.

Lemma offered_pairs_are_mapped_witness :
  In ("XAUUSD", ticker_of (model_of default_sidebar)) ticker_map.
Proof.
  apply (proj1 (offered_pairs_are_mapped default_sidebar
                  default_sidebar_delivered)).
Defined.

(** A fetch that fails on one bar, then a signal request, then a lot size:
    the parameters are those of the sample model. *)
Lemma reachable_invariant_witness :
  params (self (snd (calculate_lot_size (snd (generate_signal one_bar_world)))))
  = params sample_model.
Proof.
  apply (proj1 (@reachable_invariant one_bar_libraries sample_model _
                  (reach_lot_size
                     (reach_signal
                        (reach_fetch default_interval default_period
                           (reach_new sample_model eq_refl)))))).
Defined.

Lemma reachable_signal_witness :
  (exists s, fst (generate_signal one_bar_world) = Ok s
             /\ isnan (entry_price s) = false)
  \/ fst (generate_signal one_bar_world) = Raise not_ready
  \/ (fst (generate_signal one_bar_world)
      = Raise (Exn KeyError "'RSI'" (Some (Exn KeyError "'RSI'" None)))
      /\ exists b, data (self one_bar_world) = Some [raw_row b]).
Proof.
  apply (@reachable_signal one_bar_libraries sample_model one_bar_world).
  - apply (reach_fetch default_interval default_period
             (reach_new sample_model eq_refl)).
  - vm_compute. reflexivity.
Defined.

(** The sample fetch: the download, the three indicators, the row
    elimination. *)
Lemma fetch_data_calls_witness :
  exists rest,
    calls (snd (@fetch_data sample_libraries "1d" "1mo"
                  (new_world sample_model)))
    = Download "EURUSD=X" "1mo" "1d" :: rest
    /\ (rest = []
        \/ rest = [ComputeSMA 14]
        \/ rest = [ComputeSMA 14; ComputeEMA 14; ComputeRSI 14; DropNA])
    /\ (fst (@fetch_data sample_libraries "1d" "1mo" (new_world sample_model))
        = Ok tt
        <-> rest = [ComputeSMA 14; ComputeEMA 14; ComputeRSI 14; DropNA]).
Proof.
  exact (@fetch_data_calls sample_libraries (new_world sample_model)
           "1d" "1mo").
Defined.
